(** * web3.py: schema-driven request formatting and the eth-tester middlewares

    A shallow embedding of
      - [web3/_utils/rpc_abi.py]  (method schema table, request formatter factory)
      - [web3/providers/eth_tester/middleware.py]
        (backend compatibility formatters, default transaction fields)
    together with the statements proved about them.

    Python values are an inductive type, dictionaries are insertion-ordered
    association lists with in-place update (as [dict] behaves), exceptions are
    an explicit result type, and calls that reach the backend thread an
    abstract world state. *)

From Stdlib Require Import List String Ascii ZArith Lia Bool Permutation.
Import ListNotations.

Local Open Scope string_scope.
Local Open Scope Z_scope.

#[local] Set Warnings "-register-all".

(** ** Python values and exceptions *)

(** The JSON-like values that travel through the formatters.  [bytes]
    values are not modelled. *)
Inductive value : Type :=
| VNone
| VBool (b : bool)
| VInt (n : Z)
| VStr (s : string)
| VList (items : list value)
| VDict (fields : list (string * value)).

Inductive exn : Type :=
| IndexError
| KeyError
| TypeError
| ValueError
| AttributeError.

Inductive result (A : Type) : Type :=
| Ok (a : A)
| Raise (e : exn).

Arguments Ok {A} a.
Arguments Raise {A} e.

Definition exn_eqb (a b : exn) : bool :=
  match a, b with
  | IndexError, IndexError | KeyError, KeyError | TypeError, TypeError
  | ValueError, ValueError | AttributeError, AttributeError => true
  | _, _ => false
  end.

Definition rbind {A B} (r : result A) (k : A -> result B) : result B :=
  match r with
  | Ok a => k a
  | Raise e => Raise e
  end.

Definition is_none (v : value) : bool :=
  match v with VNone => true | _ => false end.

(** ** Dictionaries

    A Python [dict] keeps its keys unique and in insertion order; assigning
    to an existing key replaces the value where the key already stands. *)
Module Dict.

Definition t (V : Type) : Type := list (string * V).

Fixpoint get {V} (k : string) (d : t V) : option V :=
  match d with
  | [] => None
  | (k', v) :: rest => if String.eqb k k' then Some v else get k rest
  end.

Definition mem {V} (k : string) (d : t V) : bool :=
  match get k d with Some _ => true | None => false end.

(** [d[k] = v] *)
Fixpoint set {V} (k : string) (v : V) (d : t V) : t V :=
  match d with
  | [] => [(k, v)]
  | (k', v') :: rest =>
      if String.eqb k k' then (k, v) :: rest else (k', v') :: set k v rest
  end.

(** [del d[k]] on a copy (toolz [dissoc]) *)
Fixpoint del {V} (k : string) (d : t V) : t V :=
  match d with
  | [] => []
  | (k', v') :: rest =>
      if String.eqb k k' then del k rest else (k', v') :: del k rest
  end.

Definition keys {V} (d : t V) : list string := map fst d.

(** [d.update(items)] on a copy *)
Definition update {V} (d : t V) (items : list (string * V)) : t V :=
  fold_left (fun acc kv => set (fst kv) (snd kv) acc) items d.

(** [dict(items)] *)
Definition of_items {V} (items : list (string * V)) : t V := update [] items.

Definition wf {V} (d : t V) : Prop := NoDup (keys d).

End Dict.

(** ** Quantities on the wire: [hex] and [int(_, 16)] *)

Definition hexdigits : list ascii :=
  ["0"; "1"; "2"; "3"; "4"; "5"; "6"; "7";
   "8"; "9"; "a"; "b"; "c"; "d"; "e"; "f"]%char.

Definition hex_digit (d : Z) : ascii := nth (Z.to_nat d) hexdigits "0"%char.

Fixpoint hex_digits (fuel : nat) (n : Z) : list ascii :=
  match fuel with
  | O => []
  | S fuel' =>
      if n <? 16 then [hex_digit n]
      else hex_digits fuel' (n / 16) ++ [hex_digit (n mod 16)]
  end.

(** Digits of a non-negative integer, most significant first. *)
Definition hex_magnitude (n : Z) : list ascii :=
  hex_digits (S (Z.to_nat (Z.log2 n))) n.

(** Python's builtin [hex]. *)
Definition hex (n : Z) : string :=
  if n <? 0 then "-0x" ++ string_of_list_ascii (hex_magnitude (- n))
  else "0x" ++ string_of_list_ascii (hex_magnitude n).

Definition hex_value (c : ascii) : option Z :=
  let n := Z.of_nat (nat_of_ascii c) in
  if (48 <=? n) && (n <=? 57) then Some (n - 48)
  else if (97 <=? n) && (n <=? 102) then Some (n - 87)
  else if (65 <=? n) && (n <=? 70) then Some (n - 55)
  else None.

Definition is_underscore (c : ascii) : bool := Ascii.eqb c "_"%char.

(** Whitespace that [int] strips from both ends of an ASCII [str]:
    tab, line feed, vertical tab, form feed, carriage return and space. *)
Definition is_space (c : ascii) : bool :=
  let n := Z.of_nat (nat_of_ascii c) in
  ((9 <=? n) && (n <=? 13)) || (n =? 32).

Inductive digit_state : Type :=
| AtStart          (* nothing read, no base prefix *)
| AfterPrefix      (* just after 0x: one underscore may follow *)
| AfterDigit
| AfterUnderscore.

(** Digits with single underscores between them; at least one digit, the
    last character a digit. *)
Fixpoint digits_value (st : digit_state) (acc : Z) (cs : list ascii) : option Z :=
  match cs with
  | [] => match st with AfterDigit => Some acc | _ => None end
  | c :: rest =>
      if is_underscore c then
        match st with
        | AfterPrefix | AfterDigit => digits_value AfterUnderscore acc rest
        | _ => None
        end
      else
        match hex_value c with
        | Some d => digits_value AfterDigit (16 * acc + d) rest
        | None => None
        end
  end.

Fixpoint lstrip (cs : list ascii) : list ascii :=
  match cs with
  | c :: rest => if is_space c then lstrip rest else cs
  | [] => []
  end.

Definition strip (cs : list ascii) : list ascii :=
  rev (lstrip (rev (lstrip cs))).

Definition unprefixed_value (cs : list ascii) : option Z :=
  match cs with
  | "0"%char :: x :: rest =>
      if Ascii.eqb x "x"%char || Ascii.eqb x "X"%char
      then digits_value AfterPrefix 0 rest
      else digits_value AtStart 0 cs
  | _ => digits_value AtStart 0 cs
  end.

(** Python's [int(s, 16)] on a [str]. *)
Definition int16 (s : string) : result Z :=
  let cs := strip (list_ascii_of_string s) in
  let signed :=
    match cs with
    | "-"%char :: rest => option_map Z.opp (unprefixed_value rest)
    | "+"%char :: rest => unprefixed_value rest
    | _ => unprefixed_value cs
    end in
  match signed with
  | Some n => Ok n
  | None => Raise ValueError
  end.

(** ** Formatter combinators of eth_utils *)

Definition formatter : Type := value -> result value.

Definition args_formatter : Type := list value -> result (list value).

(** [apply_formatter_if(condition, formatter, value)] *)
Definition apply_formatter_if (condition : value -> result bool)
    (f : formatter) : formatter :=
  fun v => rbind (condition v) (fun c => if c then f v else Ok v).

(** [complement(predicate)] *)
Definition complement (p : value -> result bool) : value -> result bool :=
  fun v => rbind (p v) (fun b => Ok (negb b)).

Definition identity : formatter := fun v => Ok v.

Fixpoint format_nth (f : formatter) (i : nat) (vs : list value)
    : result (list value) :=
  match vs, i with
  | [], _ => Ok []
  | v :: rest, O => rbind (f v) (fun v' => Ok (v' :: rest))
  | v :: rest, S i' => rbind (format_nth f i' rest) (fun rest' => Ok (v :: rest'))
  end.

(** [apply_formatter_at_index(formatter, at_index, value)]: too short an
    argument list is an [IndexError]. *)
Definition apply_formatter_at_index (f : formatter) (at_index : nat)
    : args_formatter :=
  fun vs =>
    if (List.length vs <? at_index + 1)%nat then Raise IndexError
    else format_nth f at_index vs.

(** [formatters[key](item)] when [key in formatters], else [item] *)
Definition format_field (formatters : Dict.t formatter) (key : string)
    : formatter :=
  fun item =>
    match Dict.get key formatters with
    | Some f => f item
    | None => Ok item
    end.

Fixpoint format_items (formatters : Dict.t formatter)
    (items : list (string * value)) : result (list (string * value)) :=
  match items with
  | [] => Ok []
  | (k, v) :: rest =>
      rbind (format_field formatters k v) (fun v' =>
      rbind (format_items formatters rest) (fun rest' =>
      Ok ((k, v') :: rest')))
  end.

(** [apply_formatters_to_dict(formatters, value)]: [value.items()] is walked
    in order and the pairs are collected into a new dict. *)
Definition apply_formatters_to_dict (formatters : Dict.t formatter)
    (v : value) : result (Dict.t value) :=
  match v with
  | VDict d => rbind (format_items formatters d) (fun items =>
               Ok (Dict.of_items items))
  | _ => Raise AttributeError
  end.

Definition is_hexdigit (c : ascii) : bool :=
  match hex_value c with Some _ => true | None => false end.

(** [eth_utils.is_hex] on text: the bare prefix 0x holds; otherwise the
    text without its 0x prefix must decode as hexadecimal to at least one
    byte, so it consists of hexadecimal digits and the empty text does not
    hold. *)
Definition is_hex (s : string) : bool :=
  let cs := list_ascii_of_string s in
  match cs with
  | [] => false
  | "0"%char :: x :: rest =>
      if Ascii.eqb x "x"%char || Ascii.eqb x "X"%char
      then forallb is_hexdigit rest
      else forallb is_hexdigit cs
  | _ => forallb is_hexdigit cs
  end.

(** [eth_utils.is_string] *)
Definition is_string (v : value) : bool :=
  match v with VStr _ => true | _ => false end.

(** ** Helpers of web3/_utils/formatters.py *)

(** Modelled from the spec: [web3/_utils/formatters.py] is not among the
    sources; its [integer_to_hex] is the quantity formatter from integer to
    hexadecimal wire string (Python's [hex], which also accepts a [bool]). *)
Definition integer_to_hex (v : value) : result value :=
  match v with
  | VInt n => Ok (VStr (hex n))
  | VBool b => Ok (VStr (hex (if b then 1 else 0)))
  | _ => Raise TypeError
  end.

(** Modelled from the spec: [web3/_utils/formatters.py] is not among the
    sources; [hex_to_integer] is the inverse quantity formatter, from
    hexadecimal wire string to integer ([int(value, 16)]). *)
Definition hex_to_integer (v : value) : result value :=
  match v with
  | VStr s => rbind (int16 s) (fun n => Ok (VInt n))
  | _ => Raise TypeError
  end.

Fixpoint compose_at (i : nat) (formatters : list formatter) : args_formatter :=
  fun vs =>
    match formatters with
    | [] => Ok vs
    | f :: rest =>
        rbind (compose_at (S i) rest vs) (apply_formatter_at_index f i)
    end.

(** Modelled from the spec: [web3/_utils/formatters.py] is not among the
    sources; [apply_formatters_to_args(f0, f1, ...)] applies an
    argument-position-specific transform: [fi] to position [i], composed so
    that the last position is formatted first. *)
Definition apply_formatters_to_args (formatters : list formatter)
    : args_formatter :=
  compose_at 0 formatters.

Definition map_key (key_mappings : Dict.t string) (k : string) : string :=
  match Dict.get k key_mappings with
  | Some k' => k'
  | None => k
  end.

(** Modelled from the spec: [web3/_utils/formatters.py] is not among the
    sources; [apply_key_map] applies a field rename table: every item of the
    payload is kept under its mapped name, any field not listed passes
    through unrenamed, and a mapped key missing from the payload is a no-op. *)
Definition apply_key_map (key_mappings : Dict.t string) (d : Dict.t value)
    : Dict.t value :=
  Dict.of_items (map (fun kv => (map_key key_mappings (fst kv), snd kv)) d).

(** Modelled from the spec: [web3/_utils/formatters.py] is not among the
    sources; [remove_key_if(key, remove_if, input_dict)] drops [key] from a
    copy of the dict when it is present and [remove_if] holds of the dict. *)
Definition remove_key_if (key : string) (remove_if : Dict.t value -> bool)
    (input_dict : Dict.t value) : Dict.t value :=
  if Dict.mem key input_dict && remove_if input_dict
  then Dict.del key input_dict
  else input_dict.

(** ** web3/providers/eth_tester/middleware.py: backend compatibility *)

Definition named_blocks : list string := ["latest"; "earliest"; "pending"].

(** [value in {"latest", "earliest", "pending"}]: membership in a set hashes
    the value, so a list or a dict is a [TypeError]. *)
Definition is_named_block (v : value) : result bool :=
  match v with
  | VStr s => Ok (existsb (String.eqb s) named_blocks)
  | VList _ | VDict _ => Raise TypeError
  | _ => Ok false
  end.

Definition is_hexstr (v : value) : result bool :=
  match v with
  | VStr s => Ok (is_hex s)
  | _ => Ok false
  end.

Definition to_integer_if_hex : formatter :=
  apply_formatter_if is_hexstr hex_to_integer.

Definition is_not_named_block : value -> result bool :=
  complement is_named_block.

Definition TRANSACTION_PARAMS_MAPPING : Dict.t string :=
  [("gasPrice", "gas_price")].

Definition transaction_params_remapper : Dict.t value -> Dict.t value :=
  apply_key_map TRANSACTION_PARAMS_MAPPING.

Definition TRANSACTION_PARAMS_FORMATTERS : Dict.t formatter :=
  [("gas", to_integer_if_hex);
   ("gasPrice", to_integer_if_hex);
   ("value", to_integer_if_hex);
   ("nonce", to_integer_if_hex)].

(** [compose(remove_key_if('nonce', lambda _: True),
            apply_formatters_to_dict(TRANSACTION_PARAMS_FORMATTERS))]:
    the scalar formatters run first, then the nonce is removed. *)
Definition transaction_params_formatter (v : value) : result (Dict.t value) :=
  rbind (apply_formatters_to_dict TRANSACTION_PARAMS_FORMATTERS v) (fun d =>
  Ok (remove_key_if "nonce" (fun _ => true) d)).

Definition FILTER_PARAMS_MAPPINGS : Dict.t string :=
  [("fromBlock", "from_block"); ("toBlock", "to_block")].

Definition filter_params_remapper : Dict.t value -> Dict.t value :=
  apply_key_map FILTER_PARAMS_MAPPINGS.

Definition FILTER_PARAMS_FORMATTERS : Dict.t formatter :=
  [("fromBlock", to_integer_if_hex); ("toBlock", to_integer_if_hex)].

Definition filter_params_formatter (v : value) : result (Dict.t value) :=
  apply_formatters_to_dict FILTER_PARAMS_FORMATTERS v.

(** [compose(filter_params_remapper, filter_params_formatter)] *)
Definition filter_params_transformer : formatter :=
  fun v => rbind (filter_params_formatter v) (fun d =>
           Ok (VDict (filter_params_remapper d))).

(** [compose(transaction_params_remapper, transaction_params_formatter)] *)
Definition transaction_params_transformer : formatter :=
  fun v => rbind (transaction_params_formatter v) (fun d =>
           Ok (VDict (transaction_params_remapper d))).

(** The block-number-or-tag formatter the table below uses at every block
    position: [apply_formatter_if(is_not_named_block, to_integer_if_hex)]. *)
Definition block_number_or_tag : formatter :=
  apply_formatter_if is_not_named_block to_integer_if_hex.

(** The [request_formatters] handed to [construct_formatting_middleware]. *)
Definition request_formatters : Dict.t args_formatter :=
  [("eth_getBlockByNumber", apply_formatters_to_args [block_number_or_tag]);
   ("eth_getFilterChanges", apply_formatters_to_args [hex_to_integer]);
   ("eth_getFilterLogs", apply_formatters_to_args [hex_to_integer]);
   ("eth_getBlockTransactionCountByNumber",
      apply_formatters_to_args [block_number_or_tag]);
   ("eth_getUncleCountByBlockNumber",
      apply_formatters_to_args [block_number_or_tag]);
   ("eth_getTransactionByBlockHashAndIndex",
      apply_formatters_to_args [identity; to_integer_if_hex]);
   ("eth_getTransactionByBlockNumberAndIndex",
      apply_formatters_to_args [block_number_or_tag; to_integer_if_hex]);
   ("eth_getUncleByBlockNumberAndIndex",
      apply_formatters_to_args [block_number_or_tag; to_integer_if_hex]);
   ("eth_newFilter", apply_formatters_to_args [filter_params_transformer]);
   ("eth_getLogs", apply_formatters_to_args [filter_params_transformer]);
   ("eth_sendTransaction",
      apply_formatters_to_args [transaction_params_transformer]);
   ("eth_estimateGas",
      apply_formatters_to_args [transaction_params_transformer]);
   ("eth_call",
      apply_formatters_to_args
        [transaction_params_transformer; block_number_or_tag]);
   ("eth_uninstallFilter", apply_formatters_to_args [hex_to_integer]);
   ("eth_getCode", apply_formatters_to_args [identity; block_number_or_tag]);
   ("evm_revert", apply_formatters_to_args [hex_to_integer]);
   ("personal_sendTransaction",
      apply_formatters_to_args [transaction_params_transformer; identity])].

(** Modelled from the spec: [web3/middleware] is not among the sources; the
    request side of [construct_formatting_middleware] rewrites the outgoing
    parameters with the method's formatter, and a method without an entry
    passes through unformatted. *)
Definition format_request (method : string) (params : list value)
    : result (list value) :=
  match Dict.get method request_formatters with
  | Some f => f params
  | None => Ok params
  end.

(** The argument position that each method's request formatter treats as
    block-number-or-tag. *)
Definition block_argument_methods : list (string * nat) :=
  [("eth_getBlockByNumber", 0%nat);
   ("eth_getBlockTransactionCountByNumber", 0%nat);
   ("eth_getUncleCountByBlockNumber", 0%nat);
   ("eth_getTransactionByBlockNumberAndIndex", 0%nat);
   ("eth_getUncleByBlockNumberAndIndex", 0%nat);
   ("eth_call", 1%nat);
   ("eth_getCode", 1%nat)].

(** The methods whose first argument goes through
    [transaction_params_transformer]. *)
Definition transaction_params_methods : list string :=
  ["eth_sendTransaction"; "eth_estimateGas"; "eth_call";
   "personal_sendTransaction"].

(** ** web3/_utils/rpc_abi.py: method schemas and the formatter factory *)

(** A kind is an ABI type string such as ["address"] or ["uint[]"]. *)
Definition Kind : Type := string.

(** One normalizer of the chain; the element-wise treatment of array kinds
    is left to the normalizer. *)
Definition normalizer : Type := Kind -> value -> value.

(** What a schema table may hold under a method name: a list of kinds
    ([None] for a null kind), a dict from field name to kind, or any other
    Python object (given by its [repr]). *)
Inductive abi_types : Type :=
| AbiList (types : list (option Kind))
| AbiDict (fields : Dict.t Kind)
| AbiOther (repr : string).

Definition TRANSACTION_PARAMS_ABIS : Dict.t Kind :=
  [("data", "bytes"); ("from", "address"); ("gas", "uint");
   ("gasPrice", "uint"); ("nonce", "uint"); ("to", "address");
   ("value", "uint")].

Definition FILTER_PARAMS_ABIS : Dict.t Kind :=
  [("to", "address"); ("address", "address[]")].

Definition TRACE_PARAMS_ABIS : Dict.t Kind :=
  [("to", "address"); ("from", "address")].

Definition RPC_ABIS : Dict.t abi_types :=
  [("eth_call", AbiDict TRANSACTION_PARAMS_ABIS);
   ("eth_estimateGas", AbiDict TRANSACTION_PARAMS_ABIS);
   ("eth_getBalance", AbiList [Some "address"; None]);
   ("eth_getBlockByHash", AbiList [Some "bytes32"; Some "bool"]);
   ("eth_getBlockTransactionCountByHash", AbiList [Some "bytes32"]);
   ("eth_getCode", AbiList [Some "address"; None]);
   ("eth_getLogs", AbiDict FILTER_PARAMS_ABIS);
   ("eth_getStorageAt", AbiList [Some "address"; Some "uint"; None]);
   ("eth_getProof", AbiList [Some "address"; Some "uint[]"; None]);
   ("eth_getTransactionByBlockHashAndIndex",
      AbiList [Some "bytes32"; Some "uint"]);
   ("eth_getTransactionByHash", AbiList [Some "bytes32"]);
   ("eth_getTransactionCount", AbiList [Some "address"; None]);
   ("eth_getTransactionReceipt", AbiList [Some "bytes32"]);
   ("eth_getUncleCountByBlockHash", AbiList [Some "bytes32"]);
   ("eth_newFilter", AbiDict FILTER_PARAMS_ABIS);
   ("eth_sendRawTransaction", AbiList [Some "bytes"]);
   ("eth_sendTransaction", AbiDict TRANSACTION_PARAMS_ABIS);
   ("eth_signTransaction", AbiDict TRANSACTION_PARAMS_ABIS);
   ("eth_sign", AbiList [Some "address"; Some "bytes"]);
   ("eth_signTypedData", AbiList [Some "address"; None]);
   ("eth_submitHashrate", AbiList [Some "uint"; Some "bytes32"]);
   ("eth_submitWork", AbiList [Some "bytes8"; Some "bytes32"; Some "bytes32"]);
   ("personal_sendTransaction", AbiDict TRANSACTION_PARAMS_ABIS);
   ("personal_lockAccount", AbiList [Some "address"]);
   ("personal_unlockAccount", AbiList [Some "address"; None; None]);
   ("personal_sign", AbiList [None; Some "address"; None]);
   ("personal_signTypedData", AbiList [None; Some "address"; None]);
   ("trace_call", AbiDict TRACE_PARAMS_ABIS);
   ("parity_listStorageKeys", AbiList [Some "address"; None; None; None])].

(** [for item in value]: a list gives its items, a string its characters, a
    dict its keys; nothing else can be iterated. *)
Definition iterate (v : value) : result (list value) :=
  match v with
  | VList items => Ok items
  | VStr s => Ok (map (fun c => VStr (String c EmptyString))
                      (list_ascii_of_string s))
  | VDict d => Ok (map VStr (Dict.keys d))
  | _ => Raise TypeError
  end.

Fixpoint before_bracket (rev_chars : list ascii) : option (list ascii) :=
  match rev_chars with
  | [] => None
  | c :: rest =>
      if Ascii.eqb c "["%char then Some rest else before_bracket rest
  end.

(** The kind of the items of an array kind, which is the kind without its
    last dimension: ["uint"] for ["uint[]"] and for ["uint[2]"], ["uint[]"]
    for ["uint[][3]"]; [None] for a kind that is not an array. *)
Definition item_kind (kind : Kind) : option Kind :=
  match rev (list_ascii_of_string kind) with
  | c :: rest =>
      if Ascii.eqb c "]"%char
      then option_map (fun cs => string_of_list_ascii (rev cs))
                      (before_bracket rest)
      else None
  | [] => None
  end.

(** Modelled from the spec: [web3/_utils/abi.py] is not among the sources;
    one normalizer walks the value with its kind: under an array kind every
    element is normalized independently with the item kind, in order, and
    the normalizer then sees the array kind with the list of the results;
    under any other kind it sees the kind with the value.  A value that
    cannot be iterated under an array kind is a [TypeError] in Python; here
    it is handed to the normalizer as it is, and the statements below leave
    that case out.  [fuel] bounds the nesting of array kinds. *)
Fixpoint normalize_pass (fuel : nat) (f : normalizer) (kind : Kind)
    (v : value) : value :=
  match fuel with
  | O => f kind v
  | S fuel' =>
      match item_kind kind with
      | Some item =>
          match iterate v with
          | Ok items => f kind (VList (map (normalize_pass fuel' f item) items))
          | Raise _ => f kind v
          end
      | None => f kind v
      end
  end.

(** Modelled from the spec: [web3/_utils/abi.py] is not among the sources;
    the normalizer chain is applied left to right, each normalizer walking
    the whole value before the next one starts; identity for a null kind. *)
Definition normalize (normalizers : list normalizer) (kind : option Kind)
    (v : value) : value :=
  match kind with
  | None => v
  | Some k =>
      fold_left (fun acc f => normalize_pass (String.length k) f k acc)
                normalizers v
  end.

(** Modelled from the spec: [web3/_utils/abi.py] is not among the sources;
    [map_abi_data(normalizers, types, data)] pairs the declared kinds with
    the values by position and normalizes each pair, identity for a null
    kind.  The pairing is Python's [zip]: a value beyond the schema length
    has no kind to be paired with and is not in the result (the trailing
    null kinds of [RPC_ABIS] are what keeps such arguments); here the
    function is followed where the spec's sentence that such values remain
    says otherwise. *)
Fixpoint map_abi_data (normalizers : list normalizer)
    (types : list (option Kind)) (data : list value) : list value :=
  match types, data with
  | t :: types', v :: data' =>
      normalize normalizers t v :: map_abi_data normalizers types' data'
  | _, _ => []
  end.

(** [d[k]] *)
Definition getitem {V} (k : string) (d : Dict.t V) : result V :=
  match Dict.get k d with
  | Some v => Ok v
  | None => Raise KeyError
  end.

(** [[d[k] for k in ks]] *)
Fixpoint getitems {V} (ks : list string) (d : Dict.t V) : result (list V) :=
  match ks with
  | [] => Ok []
  | k :: ks' =>
      rbind (getitem k d) (fun v =>
      rbind (getitems ks' d) (fun vs => Ok (v :: vs)))
  end.

Fixpoint dedup (ks : list string) : list string :=
  match ks with
  | [] => []
  | k :: ks' => if existsb (String.eqb k) ks' then dedup ks' else k :: dedup ks'
  end.

Section RpcAbi.

(** The order in which Python walks a set of strings is not fixed by the
    language: [set_order] lists the elements of a set in some order. *)
Variable set_order : list string -> list string.

(** [list(set(abi_dict.keys()) & set(data.keys()))] *)
Definition common_fields (abi_dict : Dict.t Kind) (data : Dict.t value)
    : list string :=
  set_order
    (filter (fun k => Dict.mem k data) (dedup (Dict.keys abi_dict))).

Definition apply_abi_formatters_to_dict (normalizers : list normalizer)
    (abi_dict : Dict.t Kind) : formatter :=
  fun data =>
    match data with
    | VDict d =>
        let fields := common_fields abi_dict d in
        rbind (getitems fields abi_dict) (fun kinds =>
        rbind (getitems fields d) (fun values =>
        let formatted_values :=
          map_abi_data normalizers (map Some kinds) values in
        let formatted_dict :=
          Dict.of_items (combine fields formatted_values) in
        Ok (VDict (Dict.update d formatted_dict))))
    | _ => Raise AttributeError
    end.

(** The generator body of [abi_request_formatters], one pair per entry. *)
Fixpoint abi_request_formatter_items (normalizers : list normalizer)
    (items : list (string * abi_types))
    : result (list (string * args_formatter)) :=
  match items with
  | [] => Ok []
  | (method, abi) :: rest =>
      rbind (match abi with
             | AbiList types =>
                 Ok (fun data => Ok (map_abi_data normalizers types data))
             | AbiDict abi_dict =>
                 let single_dict_formatter :=
                   apply_abi_formatters_to_dict normalizers abi_dict in
                 Ok (apply_formatter_at_index single_dict_formatter 0)
             | AbiOther _ => Raise TypeError
             end) (fun f =>
      rbind (abi_request_formatter_items normalizers rest) (fun fs =>
      Ok ((method, f) :: fs)))
  end.

(** [@to_dict] collects the generated pairs into a dict when the formatters
    are built. *)
Definition abi_request_formatters (normalizers : list normalizer)
    (abis : Dict.t abi_types) : result (Dict.t args_formatter) :=
  rbind (abi_request_formatter_items normalizers abis) (fun items =>
  Ok (Dict.of_items items)).

End RpcAbi.

(** ** web3/providers/eth_tester/middleware.py: default transaction fields *)

Section Backend.

(** State of everything behind the [web3] handle and [make_request]. *)
Variable World : Type.

(** A call that may change the world and may raise. *)
Definition M (A : Type) : Type := World -> result A * World.

Definition ret {A} (a : A) : M A := fun w => (Ok a, w).

Definition raise {A} (e : exn) : M A := fun w => (Raise e, w).

Definition bind {A B} (m : M A) (k : A -> M B) : M B :=
  fun w =>
    match m w with
    | (Ok a, w') => k a w'
    | (Raise e, w') => (Raise e, w')
    end.

(** [try: m  except e: handler] *)
Definition try_except {A} (m : M A) (e : exn) (handler : M A) : M A :=
  fun w =>
    match m w with
    | (Ok a, w') => (Ok a, w')
    | (Raise e', w') => if exn_eqb e e' then handler w' else (Raise e', w')
    end.

(** The part of the [web3] handle the middleware touches:
    [web3.eth.coinbase], [web3.eth.accounts], [web3.eth.estimateGas]. *)
Record Web3 : Type := {
  coinbase : M value;
  accounts : M (list value);
  estimateGas : Dict.t value -> M Z
}.

Definition set_estimateGas (web3 : Web3) (g : Dict.t value -> M Z) : Web3 :=
  {| coinbase := coinbase web3; accounts := accounts web3; estimateGas := g |}.

Definition make_request_t : Type := string -> list value -> M value.

End Backend.

Arguments ret {World A} a.
Arguments raise {World A} e.
Arguments bind {World A B} m k.
Arguments try_except {World A} m e handler.
Arguments coinbase {World} _.
Arguments accounts {World} _.
Arguments estimateGas {World} _ _.
Arguments set_estimateGas {World} web3 g.

Notation "x <- m ;; k" := (bind m (fun x => k))
  (at level 61, m at next level, right associativity).

Section Injector.

Context {World : Type}.

(** [xs[0]] on a list *)
Definition first_item (xs : list value) : M World value :=
  match xs with
  | x :: _ => ret x
  | [] => raise IndexError
  end.

Definition guess_from (web3 : Web3 World) (transaction : Dict.t value)
    : M World value :=
  cb <- coinbase web3 ;;
  if negb (is_none cb) then ret cb
  else
    try_except
      (accts <- accounts web3 ;; first_item accts)
      KeyError
      (ret VNone).

Definition guess_gas (web3 : Web3 World) (transaction : Dict.t value)
    : M World value :=
  g <- estimateGas web3 transaction ;;
  ret (VInt (g * 2)).

Definition present_not_none (field : string) (transaction : Dict.t value)
    : bool :=
  match Dict.get field transaction with
  | Some v => negb (is_none v)
  | None => false
  end.

Definition fill_default (field : string)
    (guess_func : Web3 World -> Dict.t value -> M World value)
    (web3 : Web3 World) (transaction : Dict.t value)
    : M World (Dict.t value) :=
  if present_not_none field transaction then ret transaction
  else
    guess_val <- guess_func web3 transaction ;;
    ret (Dict.set field guess_val transaction).

(** [params[0]], which the middleware treats as a [TxParams] dict.  For a
    first argument of another shape Python's outcome depends on the value
    (the membership test may fail at once, or the guess function runs and
    [assoc] fails afterwards with another exception); this model does not
    follow it and reports a [TypeError] at once, and no statement below is
    about such a call. *)
Definition first_transaction (params : list value)
    : M World (Dict.t value) :=
  match params with
  | [] => raise IndexError
  | VDict transaction :: _ => ret transaction
  | _ :: _ => raise TypeError
  end.

Definition default_transaction_fields_middleware
    (make_request : make_request_t World) (web3 : Web3 World)
    (method : string) (params : list value) : M World value :=
  let fill_default_from := fill_default "from" guess_from web3 in
  let fill_default_gas := fill_default "gas" guess_gas web3 in
  if String.eqb method "eth_call" then
    transaction <- first_transaction params ;;
    with_from <- fill_default_from transaction ;;
    filled_transaction <- fill_default_gas with_from ;;
    make_request method (VDict filled_transaction :: tl params)
  else if String.eqb method "eth_estimateGas"
          || String.eqb method "eth_sendTransaction" then
    transaction <- first_transaction params ;;
    filled_transaction <- fill_default_from transaction ;;
    make_request method (VDict filled_transaction :: tl params)
  else
    make_request method params.

(** The methods for which the middleware fills a default sender. *)
Definition default_from_methods : list string :=
  ["eth_call"; "eth_estimateGas"; "eth_sendTransaction"].

End Injector.

(** ** web3/providers/eth_tester/middleware.py: result formatters *)

(** [eth_utils.is_dict] *)
Definition is_dict (v : value) : result bool :=
  Ok match v with VDict _ => true | _ => false end.

(** A function written for dicts, called on any value: [value.items()] on
    anything else is an [AttributeError]. *)
Definition on_dict (f : Dict.t value -> Dict.t value) : formatter :=
  fun v =>
    match v with
    | VDict d => Ok (VDict (f d))
    | _ => Raise AttributeError
    end.

Fixpoint format_each (f : formatter) (items : list value)
    : result (list value) :=
  match items with
  | [] => Ok []
  | item :: rest =>
      rbind (f item) (fun item' =>
      rbind (format_each f rest) (fun rest' => Ok (item' :: rest')))
  end.

(** Modelled from the spec: [web3/_utils/formatters.py] is not among the
    sources; [apply_formatter_to_array(formatter, value)] formats every
    element of the array individually and collects the results in a list. *)
Definition apply_formatter_to_array (f : formatter) : formatter :=
  fun v =>
    rbind (iterate v) (fun items =>
    rbind (format_each f items) (fun items' => Ok (VList items'))).

Definition is_dict_value (v : value) : bool :=
  match v with VDict _ => true | _ => false end.

(** Modelled from the spec: [web3/_utils/formatters.py] is not among the
    sources; [is_array_of_dicts(value)] holds of a list all of whose items
    are records. *)
Definition is_array_of_dicts (v : value) : result bool :=
  match v with
  | VList items => Ok (forallb is_dict_value items)
  | _ => Ok false
  end.

(** Modelled from the spec: [web3/_utils/formatters.py] is not among the
    sources; [static_return(value)] is the function that returns [value]
    whatever it is given. *)
Definition static_return (v : value) : formatter := fun _ => Ok v.

(** [partial(operator.eq, '')] *)
Definition eq_empty_string (v : value) : result bool :=
  Ok match v with VStr EmptyString => true | _ => false end.

Definition TRANSACTION_KEY_MAPPINGS : Dict.t string :=
  [("block_hash", "blockHash");
   ("block_number", "blockNumber");
   ("gas_price", "gasPrice");
   ("transaction_hash", "transactionHash");
   ("transaction_index", "transactionIndex")].

Definition transaction_key_remapper : Dict.t value -> Dict.t value :=
  apply_key_map TRANSACTION_KEY_MAPPINGS.

Definition LOG_KEY_MAPPINGS : Dict.t string :=
  [("log_index", "logIndex");
   ("transaction_index", "transactionIndex");
   ("transaction_hash", "transactionHash");
   ("block_hash", "blockHash");
   ("block_number", "blockNumber")].

Definition log_key_remapper : Dict.t value -> Dict.t value :=
  apply_key_map LOG_KEY_MAPPINGS.

Definition RECEIPT_KEY_MAPPINGS : Dict.t string :=
  [("block_hash", "blockHash");
   ("block_number", "blockNumber");
   ("contract_address", "contractAddress");
   ("gas_used", "gasUsed");
   ("cumulative_gas_used", "cumulativeGasUsed");
   ("transaction_hash", "transactionHash");
   ("transaction_index", "transactionIndex")].

Definition receipt_key_remapper : Dict.t value -> Dict.t value :=
  apply_key_map RECEIPT_KEY_MAPPINGS.

Definition BLOCK_KEY_MAPPINGS : Dict.t string :=
  [("gas_limit", "gasLimit");
   ("sha3_uncles", "sha3Uncles");
   ("transactions_root", "transactionsRoot");
   ("parent_hash", "parentHash");
   ("bloom", "logsBloom");
   ("state_root", "stateRoot");
   ("receipt_root", "receiptsRoot");
   ("total_difficulty", "totalDifficulty");
   ("extra_data", "extraData");
   ("gas_used", "gasUsed")].

Definition block_key_remapper : Dict.t value -> Dict.t value :=
  apply_key_map BLOCK_KEY_MAPPINGS.

Definition TRANSACTION_FORMATTERS : Dict.t formatter :=
  [("to", apply_formatter_if eq_empty_string (static_return VNone))].

Definition transaction_formatter (v : value) : result (Dict.t value) :=
  apply_formatters_to_dict TRANSACTION_FORMATTERS v.

Definition RECEIPT_FORMATTERS : Dict.t formatter :=
  [("logs", apply_formatter_to_array (on_dict log_key_remapper))].

Definition receipt_formatter (v : value) : result (Dict.t value) :=
  apply_formatters_to_dict RECEIPT_FORMATTERS v.

(** [compose(remapper, formatter)]: the scalar formatters run first, the
    keys are renamed afterwards. *)
Definition format_then_remap (fmt : value -> result (Dict.t value))
    (remap : Dict.t value -> Dict.t value) : formatter :=
  fun v => rbind (fmt v) (fun d => Ok (VDict (remap d))).

(** The records-or-nothing formatter of the log lists:
    [apply_formatter_if(is_array_of_dicts,
                        apply_formatter_to_array(log_key_remapper))]. *)
Definition log_array_formatter : formatter :=
  apply_formatter_if is_array_of_dicts
    (apply_formatter_to_array (on_dict log_key_remapper)).

(** The [result_formatters] handed to [construct_formatting_middleware]. *)
Definition result_formatters : Dict.t formatter :=
  [("eth_getBlockByHash",
      apply_formatter_if is_dict (on_dict block_key_remapper));
   ("eth_getBlockByNumber",
      apply_formatter_if is_dict (on_dict block_key_remapper));
   ("eth_getBlockTransactionCountByHash",
      apply_formatter_if is_dict (on_dict transaction_key_remapper));
   ("eth_getBlockTransactionCountByNumber",
      apply_formatter_if is_dict (on_dict transaction_key_remapper));
   ("eth_getTransactionByHash",
      apply_formatter_if is_dict
        (format_then_remap transaction_formatter transaction_key_remapper));
   ("eth_getTransactionReceipt",
      apply_formatter_if is_dict
        (format_then_remap receipt_formatter receipt_key_remapper));
   ("eth_newFilter", integer_to_hex);
   ("eth_newBlockFilter", integer_to_hex);
   ("eth_newPendingTransactionFilter", integer_to_hex);
   ("eth_getLogs", log_array_formatter);
   ("eth_getFilterChanges", log_array_formatter);
   ("eth_getFilterLogs", log_array_formatter);
   ("evm_snapshot", integer_to_hex)].

(** Modelled from the spec: [web3/middleware] is not among the sources; the
    result side of [construct_formatting_middleware] rewrites the result
    with the method's formatter, and a method without an entry passes
    through unformatted. *)
Definition format_result (method : string) (v : value) : result value :=
  match Dict.get method result_formatters with
  | Some f => f v
  | None => Ok v
  end.

(** The tables of field renames, on the result side and on the request
    side. *)
Definition key_mapping_tables : list (Dict.t string) :=
  [TRANSACTION_KEY_MAPPINGS; LOG_KEY_MAPPINGS; RECEIPT_KEY_MAPPINGS;
   BLOCK_KEY_MAPPINGS; TRANSACTION_PARAMS_MAPPING; FILTER_PARAMS_MAPPINGS].

(** The names a rename table maps to. *)
Definition targets (key_mappings : Dict.t string) : list string :=
  map snd key_mappings.

(** Methods whose result is a filter or snapshot id written with
    [integer_to_hex], and methods whose first argument is such an id read
    back with [hex_to_integer]. *)
Definition id_returning_methods : list string :=
  ["eth_newFilter"; "eth_newBlockFilter"; "eth_newPendingTransactionFilter";
   "evm_snapshot"].

Definition id_taking_methods : list string :=
  ["eth_getFilterChanges"; "eth_getFilterLogs"; "eth_uninstallFilter";
   "evm_revert"].

(** Methods whose result formatter only acts on a record. *)
Definition record_result_methods : list string :=
  ["eth_getBlockByHash"; "eth_getBlockByNumber";
   "eth_getBlockTransactionCountByHash";
   "eth_getBlockTransactionCountByNumber";
   "eth_getTransactionByHash"; "eth_getTransactionReceipt"].

(** Methods whose result formatter only acts on a list of records. *)
Definition log_result_methods : list string :=
  ["eth_getLogs"; "eth_getFilterChanges"; "eth_getFilterLogs"].

(** ** Vocabulary of the statements *)

(** A base-16 digit value. *)
Definition is_digit (d : Z) : Prop := 0 <= d < 16.

(** What the factory yields for one schema entry. *)
Definition formatter_for (set_order : list string -> list string)
    (normalizers : list normalizer) (abi : abi_types) (f : args_formatter)
    : Prop :=
  match abi with
  | AbiList types => f = (fun data => Ok (map_abi_data normalizers types data))
  | AbiDict abi_dict =>
      f = apply_formatter_at_index
            (apply_abi_formatters_to_dict set_order normalizers abi_dict) 0
  | AbiOther _ => False
  end.

(** The value a keyed schema leaves under field [k] of a payload. *)
Definition formatted_field (normalizers : list normalizer)
    (abi_dict : Dict.t Kind) (data : Dict.t value) (k : string)
    : option value :=
  match Dict.get k data with
  | None => None
  | Some v =>
      Some match Dict.get k abi_dict with
           | Some kind => normalize normalizers (Some kind) v
           | None => v
           end
  end.

Definition is_list_or_dict (abi : abi_types) : Prop :=
  match abi with
  | AbiList _ | AbiDict _ => True
  | AbiOther _ => False
  end.

(** How a missing sender is resolved, leaving aside an account list that is
    empty: the default account when there is one, else the first account,
    else (the account lookup raising [KeyError]) null. *)
Inductive from_resolution {World : Type} (web3 : Web3 World)
    : World -> value -> World -> Prop :=
| from_coinbase (w w1 : World) (c : value) :
    coinbase web3 w = (Ok c, w1) -> c <> VNone ->
    from_resolution web3 w c w1
| from_first_account (w w1 w2 : World) (a : value) (others : list value) :
    coinbase web3 w = (Ok VNone, w1) ->
    accounts web3 w1 = (Ok (a :: others), w2) ->
    from_resolution web3 w a w2
| from_unset (w w1 w2 : World) :
    coinbase web3 w = (Ok VNone, w1) ->
    accounts web3 w1 = (Raise KeyError, w2) ->
    from_resolution web3 w VNone w2.

(** The 'gas' field of the first positional argument. *)
Definition gas_field (params : list value) : option value :=
  match params with
  | VDict transaction :: _ => Dict.get "gas" transaction
  | _ => None
  end.

(** A [make_request] that answers with the call it was given. *)
Definition echo : make_request_t unit :=
  fun method params => ret (VList (VStr method :: params)).

(** A backend with a default account, one with accounts only, and one with
    neither. *)
Definition web3_with_coinbase : Web3 unit :=
  {| coinbase := ret (VStr "0xc0");
     accounts := ret [VStr "0xc0"; VStr "0xa1"];
     estimateGas := fun _ => ret 21000 |}.

Definition web3_accounts_only : Web3 unit :=
  {| coinbase := ret VNone;
     accounts := ret [VStr "0xa1"; VStr "0xa2"];
     estimateGas := fun _ => ret 21000 |}.

Definition web3_no_accounts : Web3 unit :=
  {| coinbase := ret VNone;
     accounts := ret [];
     estimateGas := fun _ => ret 21000 |}.

Fixpoint iterable_under (fuel : nat) (kind : Kind) (v : value) : bool :=
  match fuel with
  | O => true
  | S fuel' =>
      match item_kind kind with
      | Some item =>
          match iterate v with
          | Ok items => forallb (iterable_under fuel' item) items
          | Raise _ => false
          end
      | None => true
      end
  end.

(** A value that can be walked with its kind: under an array kind it can be
    iterated, and so can each of its elements under the item kind. *)
Definition iterable_as (kind : option Kind) (v : value) : bool :=
  match kind with
  | None => true
  | Some k => iterable_under (String.length k) k v
  end.

(** What normalizing a value by its declared kind comes to, in terms of the
    normalizers themselves: nothing for a null kind; the chain applied left
    to right for a kind that is not an array; and for an array kind, when
    the normalizers leave the list as a whole alone, every element
    normalized by the item kind, in the same number and order. *)
Definition normalizes_by_kind (normalizers : list normalizer) : Prop :=
  (forall v, normalize normalizers None v = v)
  /\ (forall kind v,
        item_kind kind = None ->
        normalize normalizers (Some kind) v
        = fold_left (fun acc f => f kind acc) normalizers v)
  /\ (forall kind item items,
        item_kind kind = Some item ->
        (forall f l, In f normalizers -> f kind (VList l) = VList l) ->
        normalize normalizers (Some kind) (VList items)
        = VList (map (normalize normalizers (Some item)) items)).

(** ** Sample inputs *)

(** A normalizer for sample runs: strings of kind ["address"] get the 0x
    prefix. *)
Definition sample_normalizer : normalizer :=
  fun kind v =>
    match v with
    | VStr s => if String.eqb kind "address" then VStr ("0x" ++ s) else v
    | _ => v
    end.

Fixpoint distinct (ks : list string) : bool :=
  match ks with
  | [] => true
  | k :: ks' => negb (existsb (String.eqb k) ks') && distinct ks'
  end.

Definition sample_transaction : Dict.t value :=
  [("from", VStr "0x7e5f4552091a69125d5dfcb7b8c2659029395bdf");
   ("gasPrice", VStr "0x3b9aca00");
   ("nonce", VStr "0x5");
   ("value", VInt 1)].

Definition sample_filter : Dict.t value :=
  [("fromBlock", VStr "0x1");
   ("address", VList [VStr "d3cd"; VStr "7e5f"]);
   ("to", VStr "aa")].

Definition sample_payload : Dict.t value :=
  [("to", VStr "d3cd"); ("chainId", VInt 1); ("value", VInt 5);
   ("from", VStr "7e5f")].


(** The fields of a transaction that the request path formats as
    quantities. *)
Definition quantity_fields : list string :=
  ["gas"; "gasPrice"; "value"; "nonce"].

(** * Properties *)

(** ** Evaluation on concrete inputs *)

Example hex_255 : hex 255 = "0xff". Proof. reflexivity. Qed.
Example hex_0 : hex 0 = "0x0". Proof. reflexivity. Qed.
Example hex_neg : hex (-4096) = "-0x1000". Proof. reflexivity. Qed.
Example int16_ff : int16 " 0XfF " = Ok 255. Proof. reflexivity. Qed.
Example int16_us : int16 "0x_1_0" = Ok 16. Proof. reflexivity. Qed.
Example int16_bare : int16 "0x" = Raise ValueError. Proof. reflexivity. Qed.
Example int16_empty : int16 "" = Raise ValueError. Proof. reflexivity. Qed.
Example int16_nopfx : int16 "-1f" = Ok (-31). Proof. reflexivity. Qed.
Example int16_0b1 : int16 "0b1" = Ok 177. Proof. reflexivity. Qed.
Example int16_neg_us : int16 "-0x_f" = Ok (-15). Proof. reflexivity. Qed.
Example int16_us2 : int16 "1__2" = Raise ValueError. Proof. reflexivity. Qed.
Example int16_us_end : int16 "1_" = Raise ValueError. Proof. reflexivity. Qed.
Example int16_0_x : int16 "0_x1" = Raise ValueError. Proof. reflexivity. Qed.
Example int16_sign_space : int16 "- 1" = Raise ValueError. Proof. reflexivity. Qed.
Example is_hex_empty : is_hex "" = false. Proof. reflexivity. Qed.
Example is_hex_bare : is_hex "0x" = true. Proof. reflexivity. Qed.
Example is_hex_odd : is_hex "0Xabc" = true. Proof. reflexivity. Qed.
Example is_hex_tag : is_hex "earliest" = false. Proof. reflexivity. Qed.
Example item_kind_array : item_kind "uint[2][]" = Some "uint[2]".
Proof. reflexivity. Qed.
Example item_kind_basic : item_kind "bytes32" = None. Proof. reflexivity. Qed.

(** ** Quantity round trip *)

Module Quantity.

Local Open Scope list_scope.

Lemma digit_cases (d : Z) :
  is_digit d ->
  In d [0; 1; 2; 3; 4; 5; 6; 7; 8; 9; 10; 11; 12; 13; 14; 15].
Proof.
  unfold is_digit; intros H. simpl.
  assert (d = 0 \/ d = 1 \/ d = 2 \/ d = 3 \/ d = 4 \/ d = 5 \/ d = 6
          \/ d = 7 \/ d = 8 \/ d = 9 \/ d = 10 \/ d = 11 \/ d = 12
          \/ d = 13 \/ d = 14 \/ d = 15) by lia.
  intuition auto.
Qed.

Ltac each_digit d H :=
  apply digit_cases in H; simpl in H;
  repeat (destruct H as [H | H]; [subst d; reflexivity |]);
  contradiction.

Lemma hex_value_digit (d : Z) : is_digit d -> hex_value (hex_digit d) = Some d.
Proof. intros H. each_digit d H. Qed.

Lemma underscore_digit (d : Z) :
  is_digit d -> is_underscore (hex_digit d) = false.
Proof. intros H. each_digit d H. Qed.

Lemma space_digit (d : Z) : is_digit d -> is_space (hex_digit d) = false.
Proof. intros H. each_digit d H. Qed.

Lemma hexdigit_digit (d : Z) : is_digit d -> is_hexdigit (hex_digit d) = true.
Proof. intros H. unfold is_hexdigit. now rewrite hex_value_digit. Qed.

(** One digit character moves the reader to [AfterDigit] whatever the
    state it was in. *)
Lemma digits_value_step (st : digit_state) (acc d : Z) (rest : list ascii) :
  is_digit d ->
  digits_value st acc (hex_digit d :: rest)
  = digits_value AfterDigit (16 * acc + d) rest.
Proof.
  intros H. cbn [digits_value].
  now rewrite underscore_digit, hex_value_digit.
Qed.

Lemma mod16_digit (n : Z) : is_digit (n mod 16).
Proof. unfold is_digit. apply Z.mod_pos_bound. lia. Qed.

(** Reading back the digits written for [n] shifts the accumulator and
    adds [n]. *)
Lemma digits_value_hex_digits (fuel : nat) :
  forall n, 0 <= n < 16 ^ Z.of_nat (S fuel) ->
  exists k, 0 <= k /\
    forall st acc rest,
      digits_value st acc (hex_digits (S fuel) n ++ rest)
      = digits_value AfterDigit (16 ^ k * acc + n) rest.
Proof.
  induction fuel as [| fuel IH]; intros n Hn.
  - exists 1. split; [lia |]. intros st acc rest.
    cbn [hex_digits]. replace (n <? 16) with true
      by (symmetry; apply Z.ltb_lt; simpl in Hn; lia).
    simpl app. rewrite digits_value_step by (unfold is_digit; simpl in Hn; lia).
    f_equal.
  - destruct (Z.ltb_spec n 16) as [Hlt | Hge].
    + exists 1. split; [lia |]. intros st acc rest.
      change (hex_digits (S (S fuel)) n)
        with (if n <? 16 then [hex_digit n]
              else hex_digits (S fuel) (n / 16) ++ [hex_digit (n mod 16)]).
      replace (n <? 16) with true by (symmetry; apply Z.ltb_lt; lia).
      simpl app. rewrite digits_value_step by (unfold is_digit; lia).
      f_equal.
    + assert (Hq : 0 <= n / 16 < 16 ^ Z.of_nat (S fuel)).
      { split; [apply Z.div_pos; lia |].
        apply Z.div_lt_upper_bound; [lia |].
        replace (Z.of_nat (S (S fuel))) with (Z.succ (Z.of_nat (S fuel))) in Hn
          by lia.
        rewrite Z.pow_succ_r in Hn by lia. lia. }
      destruct (IH _ Hq) as (k & Hk & Hread).
      exists (Z.succ k). split; [lia |]. intros st acc rest.
      change (hex_digits (S (S fuel)) n)
        with (if n <? 16 then [hex_digit n]
              else hex_digits (S fuel) (n / 16) ++ [hex_digit (n mod 16)]).
      replace (n <? 16) with false by (symmetry; apply Z.ltb_ge; lia).
      rewrite <- app_assoc. rewrite Hread. simpl app.
      rewrite digits_value_step by apply mod16_digit.
      f_equal. rewrite Z.pow_succ_r by lia.
      pose proof (Z.div_mod n 16 ltac:(lia)). lia.
Qed.

Lemma enough_fuel (n : Z) :
  0 <= n -> 0 <= n < 16 ^ Z.of_nat (S (Z.to_nat (Z.log2 n))).
Proof.
  intros Hn. split; [assumption |].
  pose proof (Z.log2_nonneg n) as Hl.
  replace (Z.of_nat (S (Z.to_nat (Z.log2 n)))) with (Z.succ (Z.log2 n)) by lia.
  destruct (Z.eq_dec n 0) as [-> | Hnz].
  - simpl. lia.
  - assert (n < 2 ^ Z.succ (Z.log2 n)) by (apply Z.log2_spec; lia).
    assert (2 ^ Z.succ (Z.log2 n) <= 16 ^ Z.succ (Z.log2 n))
      by (apply Z.pow_le_mono_l; lia).
    lia.
Qed.

Lemma digits_value_magnitude (st : digit_state) (n : Z) :
  0 <= n -> digits_value st 0 (hex_magnitude n) = Some n.
Proof.
  intros Hn. unfold hex_magnitude.
  destruct (digits_value_hex_digits _ n (enough_fuel n Hn)) as (k & _ & Hread).
  specialize (Hread st 0 []). rewrite app_nil_r in Hread. rewrite Hread.
  simpl. f_equal. lia.
Qed.

(** The digits end in a digit character. *)
Lemma hex_digits_last (fuel : nat) (n : Z) :
  0 <= n ->
  exists front, hex_digits (S fuel) n = front ++ [hex_digit (n mod 16)].
Proof.
  intros Hn. cbn [hex_digits]. destruct (Z.ltb_spec n 16).
  - exists []. simpl. now rewrite Z.mod_small by lia.
  - eexists. reflexivity.
Qed.

Lemma lstrip_nonspace (c : ascii) (cs : list ascii) :
  is_space c = false -> lstrip (c :: cs) = c :: cs.
Proof. intros H. simpl. now rewrite H. Qed.

Lemma strip_framed (c : ascii) (mid : list ascii) (z : ascii) :
  is_space c = false -> is_space z = false ->
  strip (c :: mid ++ [z]) = c :: mid ++ [z].
Proof.
  intros Hc Hz. unfold strip. rewrite lstrip_nonspace by assumption.
  assert (Hrev : rev (c :: mid ++ [z]) = z :: rev (c :: mid)).
  { change (c :: mid ++ [z]) with ((c :: mid) ++ [z]).
    now rewrite rev_app_distr. }
  rewrite Hrev, lstrip_nonspace by assumption.
  rewrite <- Hrev. apply rev_involutive.
Qed.

Lemma list_of_append (a b : string) :
  list_ascii_of_string (a ++ b)%string
  = list_ascii_of_string a ++ list_ascii_of_string b.
Proof. induction a as [| c a IH]; simpl; [reflexivity | now rewrite IH]. Qed.

(** Reading a sign, the 0x prefix and then digits that end in a
    non-space character. *)
Lemma int16_prefixed (front : list ascii) (z : ascii) (n : Z) :
  is_space z = false ->
  digits_value AfterPrefix 0 (front ++ [z]) = Some n ->
  int16 ("0x" ++ string_of_list_ascii (front ++ [z]))%string = Ok n
  /\ int16 ("-0x" ++ string_of_list_ascii (front ++ [z]))%string = Ok (- n).
Proof.
  intros Hz Hread. unfold int16.
  rewrite !list_of_append, !list_ascii_of_string_of_list_ascii.
  change (list_ascii_of_string "0x") with ["0"; "x"]%char.
  change (list_ascii_of_string "-0x") with ["-"; "0"; "x"]%char.
  change (["0"; "x"]%char ++ front ++ [z])
    with ("0"%char :: ("x"%char :: front) ++ [z]).
  change (["-"; "0"; "x"]%char ++ front ++ [z])
    with ("-"%char :: ("0"%char :: "x"%char :: front) ++ [z]).
  rewrite !strip_framed by (assumption || reflexivity).
  cbn. rewrite Hread. now split.
Qed.

(** [int(hex(n), 16) == n] for every integer. *)
Lemma int16_hex (n : Z) : int16 (hex n) = Ok n.
Proof.
  unfold hex. destruct (Z.ltb_spec n 0) as [Hneg | Hpos].
  - destruct (hex_digits_last (Z.to_nat (Z.log2 (- n))) (- n) ltac:(lia))
      as (front & Hfront).
    unfold hex_magnitude at 1. rewrite Hfront.
    replace (Ok n) with (@Ok Z (- - n)) by (f_equal; lia).
    apply int16_prefixed; [apply space_digit, mod16_digit |].
    rewrite <- Hfront. apply digits_value_magnitude. lia.
  - destruct (hex_digits_last (Z.to_nat (Z.log2 n)) n Hpos) as (front & Hfront).
    unfold hex_magnitude at 1. rewrite Hfront.
    apply int16_prefixed; [apply space_digit, mod16_digit |].
    rewrite <- Hfront. now apply digits_value_magnitude.
Qed.

(** What [hex] writes is recognised by [is_hex]. *)
Lemma hex_digits_all_hex (fuel : nat) :
  forall n, 0 <= n -> forallb is_hexdigit (hex_digits fuel n) = true.
Proof.
  induction fuel as [| fuel IH]; intros n Hn; [reflexivity |].
  cbn [hex_digits]. destruct (Z.ltb_spec n 16).
  - simpl. rewrite hexdigit_digit by (unfold is_digit; lia). reflexivity.
  - rewrite forallb_app, IH by (apply Z.div_pos; lia).
    simpl. now rewrite hexdigit_digit by apply mod16_digit.
Qed.

Lemma is_hex_hex (n : Z) : 0 <= n -> is_hex (hex n) = true.
Proof.
  intros Hn. unfold hex. replace (n <? 0) with false
    by (symmetry; apply Z.ltb_ge; lia).
  unfold is_hex. rewrite list_of_append, list_ascii_of_string_of_list_ascii.
  change (list_ascii_of_string "0x") with ["0"; "x"]%char.
  generalize (hex_digits_all_hex (S (Z.to_nat (Z.log2 n))) n Hn).
  fold (hex_magnitude n). generalize (hex_magnitude n). intros ds Hds.
  cbn. exact Hds.
Qed.

End Quantity.

(** ** Facts about dictionaries *)

Module DictFacts.

Import Dict.
Local Open Scope list_scope.

Ltac eqb_cases :=
  repeat (match goal with
          | |- context [String.eqb ?a ?b] => destruct (String.eqb_spec a b)
          end; subst; simpl; try congruence);
  try tauto.

Section Facts.

Context {V : Type}.
Implicit Types (d items : t V) (k : string) (v : V).

Lemma get_set_eq k v d : get k (set k v d) = Some v.
Proof.
  induction d as [| [k' v'] d IH]; simpl; eqb_cases.
Qed.

Lemma get_set_neq k k' v d : k' <> k -> get k' (set k v d) = get k' d.
Proof.
  intros Hne. induction d as [| [k0 v0] d IH]; simpl; eqb_cases.
Qed.

Lemma get_set k k' v d :
  get k' (set k v d) = if String.eqb k' k then Some v else get k' d.
Proof.
  destruct (String.eqb_spec k' k) as [-> | Hne].
  - apply get_set_eq.
  - now apply get_set_neq.
Qed.

Lemma get_none_iff k d : get k d = None <-> ~ In k (keys d).
Proof.
  induction d as [| [k' v'] d IH]; simpl; [tauto |].
  destruct (String.eqb_spec k k') as [-> | Hne].
  - split; [discriminate | intros H; exfalso; apply H; now left].
  - rewrite IH. split; [intros H [E | E]; [congruence | tauto] | tauto].
Qed.

Lemma get_some_in k v d : get k d = Some v -> In (k, v) d.
Proof.
  induction d as [| [k' v'] d IH]; simpl; [discriminate |].
  destruct (String.eqb_spec k k') as [-> | Hne]; intros H.
  - left. congruence.
  - right. auto.
Qed.

Lemma in_get k v d : wf d -> In (k, v) d -> get k d = Some v.
Proof.
  unfold wf. induction d as [| [k' v'] d IH]; simpl; [tauto |].
  intros Hnd [E | Hin]; inversion Hnd as [| ? ? Hnotin Hnd']; subst.
  - inversion E; subst. now rewrite String.eqb_refl.
  - destruct (String.eqb_spec k k') as [-> | Hne]; [| auto].
    exfalso. apply Hnotin. change k' with (fst (k', v)). now apply in_map.
Qed.

Lemma mem_in k d : mem k d = true <-> In k (keys d).
Proof.
  unfold mem. pose proof (get_none_iff k d) as H.
  destruct (get k d).
  - split; [intros _ | reflexivity].
    destruct (in_dec string_dec k (keys d)) as [Hin | Hnot]; [assumption |].
    apply H in Hnot. discriminate.
  - split; [discriminate |]. intros Hin. exfalso. now apply H.
Qed.

Lemma keys_set_present k v d : In k (keys d) -> keys (set k v d) = keys d.
Proof.
  induction d as [| [k' v'] d IH]; simpl; [tauto |].
  intros [E | Hin]; destruct (String.eqb_spec k k'); subst; simpl;
    try congruence.
  f_equal. auto.
Qed.

Lemma set_fresh k v d : ~ In k (keys d) -> set k v d = d ++ [(k, v)].
Proof.
  induction d as [| [k' v'] d IH]; simpl; [reflexivity |].
  intros Hnot. destruct (String.eqb_spec k k') as [-> | Hne]; [tauto |].
  f_equal. apply IH. tauto.
Qed.

Lemma in_keys_set k k' v d :
  In k' (keys (set k v d)) <-> k' = k \/ In k' (keys d).
Proof.
  induction d as [| [k0 v0] d IH]; simpl.
  - intuition congruence.
  - destruct (String.eqb_spec k k0) as [-> | Hne]; simpl.
    + intuition congruence.
    + rewrite IH. intuition congruence.
Qed.

Lemma wf_set k v d : wf d -> wf (set k v d).
Proof.
  unfold wf. induction d as [| [k' v'] d IH]; simpl; intros Hnd.
  - constructor; [tauto | constructor].
  - inversion Hnd as [| ? ? Hnotin Hnd']; subst.
    destruct (String.eqb_spec k k') as [-> | Hne]; simpl.
    + now constructor.
    + constructor; [| auto].
      intros Hin. apply in_keys_set in Hin. intuition congruence.
Qed.

Lemma get_del_eq k d : get k (del k d) = None.
Proof. induction d as [| [k' v'] d IH]; simpl; eqb_cases. Qed.

Lemma get_del_neq k k' d : k' <> k -> get k' (del k d) = get k' d.
Proof.
  intros Hne. induction d as [| [k0 v0] d IH]; simpl; eqb_cases.
Qed.

Lemma in_keys_del k k' d :
  In k' (keys (del k d)) <-> k' <> k /\ In k' (keys d).
Proof.
  induction d as [| [k0 v0] d IH]; simpl; [tauto |].
  destruct (String.eqb_spec k k0) as [-> | Hne]; simpl.
  - rewrite IH. intuition congruence.
  - rewrite IH. intuition congruence.
Qed.

Lemma wf_del k d : wf d -> wf (del k d).
Proof.
  unfold wf. induction d as [| [k' v'] d IH]; simpl; intros Hnd;
    [constructor |].
  inversion Hnd as [| ? ? Hnotin Hnd']; subst.
  destruct (String.eqb_spec k k') as [-> | Hne]; simpl; [auto |].
  constructor; [| auto]. intros Hin. apply in_keys_del in Hin. tauto.
Qed.

Lemma update_cons d k v items :
  update d ((k, v) :: items) = update (set k v d) items.
Proof. reflexivity. Qed.

(** Updating with fresh, distinct keys appends the items. *)
Lemma update_fresh items :
  forall d,
    NoDup (keys items) ->
    (forall k, In k (keys items) -> ~ In k (keys d)) ->
    update d items = d ++ items.
Proof.
  induction items as [| [k v] items IH]; intros d Hnd Hfresh.
  - simpl. now rewrite app_nil_r.
  - rewrite update_cons. inversion Hnd as [| ? ? Hnotin Hnd']; subst.
    rewrite set_fresh by (apply Hfresh; now left).
    rewrite IH; [now rewrite <- app_assoc | assumption |].
    intros k0 Hin Hin'. unfold keys in Hin'. rewrite map_app in Hin'.
    apply in_app_or in Hin'. destruct Hin' as [Hd | [E | []]].
    + apply (Hfresh k0); [now right | assumption].
    + simpl in E. subst. tauto.
Qed.

Lemma of_items_wf items : wf items -> of_items items = items.
Proof.
  intros Hwf. unfold of_items. rewrite update_fresh; auto.
Qed.

(** Updating with keys already present keeps the key order. *)
Lemma keys_update_present items :
  forall d,
    (forall k, In k (keys items) -> In k (keys d)) ->
    keys (update d items) = keys d.
Proof.
  induction items as [| [k v] items IH]; intros d Hsub; [reflexivity |].
  rewrite update_cons, IH.
  - apply keys_set_present. apply Hsub. now left.
  - intros k0 Hin. apply in_keys_set. right. apply Hsub. now right.
Qed.

Lemma in_keys_update items :
  forall d k,
    In k (keys (update d items)) <-> In k (keys d) \/ In k (keys items).
Proof.
  induction items as [| [k0 v0] items IH]; intros d k.
  - simpl. tauto.
  - rewrite update_cons, IH, in_keys_set. simpl. intuition congruence.
Qed.

(** With distinct keys in [items], an update overrides exactly the keys
    of [items]. *)
Lemma get_update items :
  forall d k,
    NoDup (keys items) ->
    get k (update d items)
    = match get k items with Some v => Some v | None => get k d end.
Proof.
  induction items as [| [k0 v0] items IH]; intros d k Hnd; [reflexivity |].
  inversion Hnd as [| ? ? Hnotin Hnd']; subst.
  rewrite update_cons, IH by assumption. simpl.
  destruct (String.eqb_spec k k0) as [-> | Hne].
  - apply get_none_iff in Hnotin. rewrite Hnotin. apply get_set_eq.
  - now rewrite get_set_neq by assumption.
Qed.

Lemma wf_update items : forall d, wf d -> wf (update d items).
Proof.
  induction items as [| [k v] items IH]; intros d Hwf; [assumption |].
  rewrite update_cons. apply IH. now apply wf_set.
Qed.

End Facts.

End DictFacts.

(** ** Positional formatter combinators *)

Module ArgsFacts.

Local Open Scope list_scope.
Local Open Scope nat_scope.

Lemma rbind_ok {A B} (r : result A) (k : A -> result B) (b : B) :
  rbind r k = Ok b -> exists a, r = Ok a /\ k a = Ok b.
Proof. destruct r as [a | e]; simpl; [eauto | discriminate]. Qed.

(** A successful [format_nth] rewrites position [i] with the formatter's
    result and nothing else. *)
Lemma format_nth_ok (f : formatter) :
  forall i vs out,
    format_nth f i vs = Ok out -> i < List.length vs ->
    exists v v',
      nth_error vs i = Some v /\ f v = Ok v' /\ nth_error out i = Some v'
      /\ (forall j, j <> i -> nth_error out j = nth_error vs j)
      /\ List.length out = List.length vs.
Proof.
  induction i as [| i IH]; intros [| v vs] out H Hlen; simpl in *; try lia.
  - apply rbind_ok in H. destruct H as (v' & Hf & E). inversion E; subst.
    exists v, v'. repeat split; auto.
    intros [| j] Hj; [contradiction | reflexivity].
  - apply rbind_ok in H. destruct H as (rest' & Hrec & E). inversion E; subst.
    destruct (IH vs rest' Hrec ltac:(lia)) as (x & x' & Hx & Hfx & Hout & Hframe & Hl).
    exists x, x'. repeat split; auto.
    + intros [| j] Hj; simpl; [reflexivity |]. apply Hframe. lia.
    + simpl. lia.
Qed.

Lemma apply_formatter_at_index_ok (f : formatter) (i : nat) (vs out : list value) :
  apply_formatter_at_index f i vs = Ok out ->
  exists v v',
    nth_error vs i = Some v /\ f v = Ok v' /\ nth_error out i = Some v'
    /\ (forall j, j <> i -> nth_error out j = nth_error vs j)
    /\ List.length out = List.length vs.
Proof.
  unfold apply_formatter_at_index. intros H.
  destruct (Nat.ltb_spec (List.length vs) (i + 1)); [discriminate |].
  apply format_nth_ok; [assumption | lia].
Qed.

(** [apply_formatters_to_args]: formatter [j] of the list acts on position
    [i0 + j] of the original arguments; every other position is kept. *)
Lemma compose_at_ok (fs : list formatter) :
  forall i0 vs out,
    compose_at i0 fs vs = Ok out ->
    List.length out = List.length vs
    /\ (forall j f, nth_error fs j = Some f ->
          exists v v', nth_error vs (i0 + j) = Some v /\ f v = Ok v'
                       /\ nth_error out (i0 + j) = Some v')
    /\ (forall p, p < i0 \/ i0 + List.length fs <= p ->
          nth_error out p = nth_error vs p).
Proof.
  induction fs as [| f fs IH]; intros i0 vs out H.
  - simpl in H. inversion H; subst. repeat split; auto.
    intros [| j] g Hg; discriminate.
  - cbn [compose_at] in H. apply rbind_ok in H.
    destruct H as (mid & Hmid & Hout).
    destruct (IH _ _ _ Hmid) as (Hlen & Hpos & Hframe).
    destruct (apply_formatter_at_index_ok _ _ _ _ Hout)
      as (v & v' & Hv & Hf & Hv' & Hother & Hlen').
    repeat split.
    + congruence.
    + intros [| j] g Hg; simpl in Hg.
      * inversion Hg; subst g. exists v, v'. rewrite Nat.add_0_r.
        rewrite <- (Hframe i0) by lia. auto.
      * destruct (Hpos j g Hg) as (x & x' & Hx & Hgx & Hx').
        exists x, x'. replace (i0 + S j) with (S i0 + j) by lia.
        repeat split; auto. rewrite Hother by lia. assumption.
    + intros p Hp. simpl in Hp. rewrite Hother by lia. apply Hframe. lia.
Qed.

Lemma apply_formatters_to_args_ok (fs : list formatter) (vs out : list value) :
  apply_formatters_to_args fs vs = Ok out ->
  List.length out = List.length vs
  /\ (forall j f, nth_error fs j = Some f ->
        exists v v', nth_error vs j = Some v /\ f v = Ok v'
                     /\ nth_error out j = Some v')
  /\ (forall p, List.length fs <= p -> nth_error out p = nth_error vs p).
Proof.
  intros H. destruct (compose_at_ok fs 0 vs out H) as (Hlen & Hpos & Hframe).
  split; [assumption | split].
  - exact Hpos.
  - intros p Hp. apply Hframe. lia.
Qed.

End ArgsFacts.

(** ** Block tags *)

Lemma named_block_true (s : string) :
  existsb (String.eqb s) named_blocks = true <-> In s named_blocks.
Proof.
  rewrite existsb_exists. split.
  - intros (x & Hin & E). apply String.eqb_eq in E. now subst.
  - intros Hin. exists s. split; [assumption | apply String.eqb_refl].
Qed.

Lemma block_number_or_tag_named (tag : string) :
  In tag named_blocks -> block_number_or_tag (VStr tag) = Ok (VStr tag).
Proof.
  intros Hin. apply named_block_true in Hin.
  unfold block_number_or_tag, apply_formatter_if, is_not_named_block, complement,
    is_named_block.
  rewrite Hin. reflexivity.
Qed.

(** Every listed method has the block formatter at the listed position. *)
Lemma block_argument_methods_table (method : string) (i : nat) :
  In (method, i) block_argument_methods ->
  exists fs,
    Dict.get method request_formatters = Some (apply_formatters_to_args fs)
    /\ nth_error fs i = Some block_number_or_tag.
Proof.
  unfold block_argument_methods. simpl.
  intros H.
  repeat (destruct H as [H | H];
          [inversion H; subst; eexists; split; reflexivity |]).
  contradiction.
Qed.

(** C5: for every method whose request formatter has a block-number-or-tag
    position (in the table: the seven methods of [block_argument_methods]),
    the tags "latest", "earliest" and "pending" come out of the formatter
    unchanged, never as integers; the block formatter changes a value only
    when it is a hexadecimal string that is not a tag, and then by
    [hex_to_integer]. *)
Theorem named_blocks_pass_through :
  (forall tag, In tag named_blocks ->
     block_number_or_tag (VStr tag) = Ok (VStr tag))
  /\ (forall method fs i params out tag,
        Dict.get method request_formatters = Some (apply_formatters_to_args fs) ->
        nth_error fs i = Some block_number_or_tag ->
        In tag named_blocks ->
        nth_error params i = Some (VStr tag) ->
        format_request method params = Ok out ->
        nth_error out i = Some (VStr tag))
  /\ (forall method i params out tag,
        In (method, i) block_argument_methods ->
        In tag named_blocks ->
        nth_error params i = Some (VStr tag) ->
        format_request method params = Ok out ->
        nth_error out i = Some (VStr tag))
  /\ (forall v v',
        block_number_or_tag v = Ok v' -> v' <> v ->
        exists s, v = VStr s /\ ~ In s named_blocks /\ is_hex s = true
                  /\ hex_to_integer v = Ok v').
Proof.
  assert (Hany : forall method fs i params out tag,
            Dict.get method request_formatters
            = Some (apply_formatters_to_args fs) ->
            nth_error fs i = Some block_number_or_tag ->
            In tag named_blocks ->
            nth_error params i = Some (VStr tag) ->
            format_request method params = Ok out ->
            nth_error out i = Some (VStr tag)).
  { intros method fs i params out tag Hget Hfs Htag Hnth Hfmt.
    unfold format_request in Hfmt. rewrite Hget in Hfmt.
    destruct (ArgsFacts.apply_formatters_to_args_ok _ _ _ Hfmt) as (_ & Hpos & _).
    destruct (Hpos _ _ Hfs) as (v & v' & Hv & Hf & Hout).
    rewrite Hnth in Hv. inversion Hv; subst v.
    rewrite block_number_or_tag_named in Hf by assumption.
    inversion Hf; subst. assumption. }
  split; [exact block_number_or_tag_named | split; [exact Hany | split]].
  - intros method i params out tag Hm.
    destruct (block_argument_methods_table _ _ Hm) as (fs & Hget & Hfs).
    now apply (Hany method fs).
  - intros v v' H Hne.
    unfold block_number_or_tag, apply_formatter_if, is_not_named_block,
      complement in H.
    destruct v; cbn [is_named_block rbind negb] in H; try discriminate;
      try (inversion H; subst; now contradiction Hne).
    destruct (existsb (String.eqb s) named_blocks) eqn:Hnamed;
      cbn [rbind negb] in H.
    + inversion H; subst. now contradiction Hne.
    + unfold to_integer_if_hex, apply_formatter_if in H. simpl in H.
      destruct (is_hex s) eqn:Hhex.
      * exists s. repeat split; auto.
        intros Hin. apply named_block_true in Hin. congruence.
      * inversion H; subst. now contradiction Hne.
Qed.

Lemma named_blocks_pass_through_witness :
  nth_error
    match format_request "eth_call"
            [VDict [("to", VStr "0xd3cda913deb6f67967b99d67acdfa1712c293601");
                    ("gas", VStr "0x5208")];
             VStr "pending"] with
    | Ok out => out
    | Raise _ => []
    end 1
  = Some (VStr "pending").
Proof.
  destruct named_blocks_pass_through as (_ & _ & Hmethods & _).
  apply (Hmethods "eth_call" 1%nat
           [VDict [("to", VStr "0xd3cda913deb6f67967b99d67acdfa1712c293601");
                   ("gas", VStr "0x5208")];
            VStr "pending"] _ "pending").
  - simpl. tauto.
  - simpl. tauto.
  - reflexivity.
  - reflexivity.
Defined.

(** ** Quantity round trip, on values *)

(** C8: for every non-negative integer [n], writing it with the quantity
    formatter [integer_to_hex] and reading the result back with the inverse
    formatter [hex_to_integer] yields [n]; so does reading it back through
    [to_integer_if_hex], the gated form the request formatters use. *)
Theorem quantity_round_trip (n : Z) :
  0 <= n ->
  rbind (integer_to_hex (VInt n)) hex_to_integer = Ok (VInt n)
  /\ rbind (integer_to_hex (VInt n)) to_integer_if_hex = Ok (VInt n).
Proof.
  intros Hn. simpl.
  unfold to_integer_if_hex, apply_formatter_if. simpl.
  rewrite Quantity.is_hex_hex by assumption.
  unfold hex_to_integer. rewrite Quantity.int16_hex. simpl. now split.
Qed.

Lemma quantity_round_trip_witness :
  rbind (integer_to_hex (VInt 48879)) hex_to_integer = Ok (VInt 48879)
  /\ rbind (integer_to_hex (VInt 48879)) to_integer_if_hex = Ok (VInt 48879).
Proof. apply (quantity_round_trip 48879). lia. Defined.

(** ** Transaction parameters on the request path *)

Module TxParamsFacts.

Import Dict DictFacts ArgsFacts.
Local Open Scope list_scope.

Lemma format_items_ok (formatters : Dict.t formatter) :
  forall items out,
    format_items formatters items = Ok out ->
    keys out = keys items
    /\ (forall k v, get k items = Some v ->
          exists v', format_field formatters k v = Ok v'
                     /\ get k out = Some v').
Proof.
  induction items as [| [k0 v0] items IH]; intros out H.
  - inversion H; subst. split; [reflexivity | discriminate].
  - cbn [format_items] in H. apply rbind_ok in H.
    destruct H as (v0' & Hf & H). apply rbind_ok in H.
    destruct H as (rest' & Hrest & E). inversion E; subst.
    destruct (IH _ Hrest) as (Hkeys & Hget).
    split; [simpl; now f_equal |].
    intros k v. simpl. destruct (String.eqb_spec k k0) as [-> | Hne].
    + intros Hv. inversion Hv; subst. eauto.
    + apply Hget.
Qed.

Lemma format_items_total (formatters : Dict.t formatter) :
  forall items,
    (forall k v, In (k, v) items ->
       exists v', format_field formatters k v = Ok v') ->
    exists out, format_items formatters items = Ok out.
Proof.
  induction items as [| [k0 v0] items IH]; intros Hall.
  - now exists [].
  - destruct (Hall k0 v0 (or_introl eq_refl)) as (v0' & Hf).
    destruct IH as (rest' & Hrest); [intros k v Hin; apply Hall; now right |].
    exists ((k0, v0') :: rest'). cbn [format_items].
    now rewrite Hf, Hrest.
Qed.

Lemma del_absent {V} (k : string) (d : t V) :
  ~ In k (keys d) -> del k d = d.
Proof.
  induction d as [| [k' v'] d IH]; simpl; [reflexivity |].
  intros Hnot. destruct (String.eqb_spec k k') as [-> | Hne]; [tauto |].
  f_equal. apply IH. tauto.
Qed.

(** [remove_key_if(key, lambda _: True)] is plain removal. *)
Lemma remove_key_always (key : string) (d : t value) :
  remove_key_if key (fun _ => true) d = del key d.
Proof.
  unfold remove_key_if. rewrite andb_true_r.
  destruct (mem key d) eqn:Hmem; [reflexivity |].
  symmetry. apply del_absent. rewrite <- mem_in. congruence.
Qed.

Lemma map_key_params (k : string) :
  map_key TRANSACTION_PARAMS_MAPPING k
  = if String.eqb k "gasPrice" then "gas_price" else k.
Proof.
  unfold map_key, TRANSACTION_PARAMS_MAPPING. cbn [get].
  now destruct (String.eqb k "gasPrice").
Qed.

(** The rename cannot merge two fields of a payload that has no
    [gas_price] field of its own. *)
Lemma map_key_params_inj (ks : list string) :
  ~ In "gas_price" ks ->
  ForallPairs (fun a b =>
    map_key TRANSACTION_PARAMS_MAPPING a = map_key TRANSACTION_PARAMS_MAPPING b
    -> a = b) ks.
Proof.
  intros Hnot a b Ha Hb. rewrite !map_key_params.
  destruct (String.eqb_spec a "gasPrice"), (String.eqb_spec b "gasPrice");
    intros E; subst; congruence.
Qed.

Lemma keys_rename (m : t string) (d : t value) :
  keys (map (fun kv => (map_key m (fst kv), snd kv)) d)
  = map (map_key m) (keys d).
Proof. unfold keys. rewrite !map_map. reflexivity. Qed.

(** What [transaction_params_transformer] sends out for a dict payload. *)
Lemma transaction_params_transformer_ok (tx : t value) (out : value) :
  wf tx ->
  transaction_params_transformer (VDict tx) = Ok out ->
  exists tx',
    out = VDict tx'
    /\ get "nonce" tx' = None
    /\ (~ In "gas_price" (keys tx) ->
        forall k v, k <> "nonce" -> get k tx = Some v ->
          exists v',
            format_field TRANSACTION_PARAMS_FORMATTERS k v = Ok v'
            /\ get (map_key TRANSACTION_PARAMS_MAPPING k) tx' = Some v').
Proof.
  intros Hwf H. unfold transaction_params_transformer in H.
  apply rbind_ok in H. destruct H as (d2 & Hfmt & E). inversion E; subst out.
  unfold transaction_params_formatter in Hfmt.
  apply rbind_ok in Hfmt. destruct Hfmt as (d1 & Hd1 & E1).
  inversion E1; subst d2. clear E E1.
  unfold apply_formatters_to_dict in Hd1. apply rbind_ok in Hd1.
  destruct Hd1 as (items & Hitems & E). inversion E; subst d1. clear E.
  destruct (format_items_ok _ _ _ Hitems) as (Hkeys & Hget).
  assert (Hwfi : wf items) by (unfold wf; now rewrite Hkeys).
  rewrite of_items_wf by assumption. rewrite remove_key_always.
  eexists. split; [reflexivity | split].
  - apply get_none_iff. unfold transaction_params_remapper, apply_key_map.
    intros Hin. unfold of_items in Hin. apply in_keys_update in Hin.
    destruct Hin as [[] | Hin].
    rewrite keys_rename in Hin. apply in_map_iff in Hin.
    destruct Hin as (k & Hk & Hin). apply in_keys_del in Hin.
    rewrite map_key_params in Hk.
    destruct (String.eqb_spec k "gasPrice"); [discriminate | tauto].
  - intros Hgp k v Hne Hv.
    destruct (Hget k v Hv) as (v' & Hf & Hv'). exists v'. split; [assumption |].
    unfold transaction_params_remapper, apply_key_map.
    set (renamed := map (fun kv => (map_key TRANSACTION_PARAMS_MAPPING (fst kv),
                                    snd kv)) (del "nonce" items)).
    assert (Hwfr : wf renamed).
    { unfold wf, renamed. rewrite keys_rename.
      apply NoDup_map_NoDup_ForallPairs; [| now apply wf_del].
      apply map_key_params_inj. intros Hin. apply in_keys_del in Hin.
      rewrite Hkeys in Hin. tauto. }
    rewrite of_items_wf by assumption. apply in_get; [assumption |].
    unfold renamed.
    change (map_key TRANSACTION_PARAMS_MAPPING k, v')
      with ((fun kv : string * value =>
               (map_key TRANSACTION_PARAMS_MAPPING (fst kv), snd kv)) (k, v')).
    apply in_map. apply get_some_in. now rewrite get_del_neq.
Qed.

(** The transformer returns whenever the scalar formatters do. *)
Lemma transaction_params_transformer_total (tx : t value) :
  (forall k v, In (k, v) tx ->
     exists v', format_field TRANSACTION_PARAMS_FORMATTERS k v = Ok v') ->
  exists tx', transaction_params_transformer (VDict tx) = Ok (VDict tx').
Proof.
  intros Hall.
  destruct (format_items_total TRANSACTION_PARAMS_FORMATTERS tx Hall)
    as (items & Hitems).
  unfold transaction_params_transformer, transaction_params_formatter,
    apply_formatters_to_dict.
  rewrite Hitems. simpl. eauto.
Qed.

Lemma transaction_params_methods_table (method : string) :
  In method transaction_params_methods ->
  exists fs,
    get method request_formatters = Some (apply_formatters_to_args fs)
    /\ nth_error fs 0 = Some transaction_params_transformer.
Proof.
  unfold transaction_params_methods. simpl. intros H.
  repeat (destruct H as [H | H];
          [subst; eexists; split; reflexivity |]).
  contradiction.
Qed.

End TxParamsFacts.

(** C10: on the request path of eth_sendTransaction, eth_estimateGas,
    eth_call and personal_sendTransaction the outgoing transaction payload
    has no 'nonce' field, whatever nonce the caller supplied; every other
    supplied field is kept, under its mapped name (gasPrice becomes
    gas_price) and with its scalar formatter applied (gas, gasPrice and
    value through [to_integer_if_hex]).  A transaction-parameter payload has
    no field called gas_price of its own, which is what keeps the rename from
    merging two fields. *)
Theorem nonce_removed_fields_kept
    (method : string) (tx : Dict.t value) (rest out : list value) :
  In method transaction_params_methods ->
  Dict.wf tx ->
  format_request method (VDict tx :: rest) = Ok out ->
  exists tx',
    nth_error out 0 = Some (VDict tx')
    /\ Dict.get "nonce" tx' = None
    /\ (~ In "gas_price" (Dict.keys tx) ->
        forall k v, k <> "nonce" -> Dict.get k tx = Some v ->
          exists v',
            format_field TRANSACTION_PARAMS_FORMATTERS k v = Ok v'
            /\ Dict.get (map_key TRANSACTION_PARAMS_MAPPING k) tx' = Some v').
Proof.
  intros Hm Hwf Hfmt.
  destruct (TxParamsFacts.transaction_params_methods_table _ Hm)
    as (fs & Hget & Hfs).
  unfold format_request in Hfmt. rewrite Hget in Hfmt.
  destruct (ArgsFacts.apply_formatters_to_args_ok _ _ _ Hfmt) as (_ & Hpos & _).
  destruct (Hpos _ _ Hfs) as (v & v' & Hv & Hf & Hout).
  simpl in Hv. inversion Hv; subst v.
  destruct (TxParamsFacts.transaction_params_transformer_ok _ _ Hwf Hf)
    as (tx' & -> & Hnonce & Hkept).
  exists tx'. auto.
Qed.

Lemma nonce_removed_fields_kept_witness :
  exists tx',
    nth_error
      match format_request "eth_sendTransaction" [VDict sample_transaction] with
      | Ok out => out
      | Raise _ => []
      end 0 = Some (VDict tx')
    /\ Dict.get "nonce" tx' = None
    /\ (~ In "gas_price" (Dict.keys sample_transaction) ->
        forall k v, k <> "nonce" -> Dict.get k sample_transaction = Some v ->
          exists v',
            format_field TRANSACTION_PARAMS_FORMATTERS k v = Ok v'
            /\ Dict.get (map_key TRANSACTION_PARAMS_MAPPING k) tx' = Some v').
Proof.
  apply (nonce_removed_fields_kept "eth_sendTransaction" sample_transaction []).
  - simpl. tauto.
  - unfold Dict.wf. simpl.
    repeat (constructor; [simpl; intuition discriminate |]). constructor.
  - reflexivity.
Defined.

Example sample_transaction_sent :
  format_request "eth_sendTransaction" [VDict sample_transaction]
  = Ok [VDict [("from", VStr "0x7e5f4552091a69125d5dfcb7b8c2659029395bdf");
               ("gas_price", VInt 1000000000);
               ("value", VInt 1)]].
Proof. reflexivity. Qed.

(** ** Normalizing by kind *)

Module NormalizeFacts.

Local Open Scope list_scope.
Local Open Scope nat_scope.

Lemma length_chars (s : string) :
  List.length (list_ascii_of_string s) = String.length s.
Proof. induction s as [| c s IH]; simpl; [reflexivity | now rewrite IH]. Qed.

Lemma length_of_chars (cs : list ascii) :
  String.length (string_of_list_ascii cs) = List.length cs.
Proof. induction cs as [| c cs IH]; simpl; [reflexivity | now rewrite IH]. Qed.

Lemma before_bracket_shorter (cs : list ascii) :
  forall front, before_bracket cs = Some front ->
    List.length front < List.length cs.
Proof.
  induction cs as [| c cs IH]; intros front H; simpl in H; [discriminate |].
  destruct (Ascii.eqb c "["%char).
  - inversion H; subst. simpl. lia.
  - apply IH in H. simpl. lia.
Qed.

(** The item kind is a shorter text than the array kind. *)
Lemma item_kind_shorter (kind item : Kind) :
  item_kind kind = Some item -> String.length item < String.length kind.
Proof.
  unfold item_kind. rewrite <- (length_chars kind), <- (length_rev (list_ascii_of_string kind)).
  destruct (rev (list_ascii_of_string kind)) as [| c rest]; [discriminate |].
  destruct (Ascii.eqb c "]"%char); [| discriminate].
  destruct (before_bracket rest) as [front |] eqn:Hfront; [| discriminate].
  intros H. inversion H; subst.
  rewrite length_of_chars, length_rev.
  apply before_bracket_shorter in Hfront. simpl. lia.
Qed.

Lemma pass_basic (fuel : nat) (f : normalizer) (kind : Kind) (v : value) :
  item_kind kind = None -> normalize_pass fuel f kind v = f kind v.
Proof. intros H. destruct fuel; simpl; [reflexivity | now rewrite H]. Qed.

Lemma item_kind_empty (kind : Kind) :
  String.length kind = 0 -> item_kind kind = None.
Proof. destruct kind; [reflexivity | discriminate]. Qed.

(** Any fuel that covers the length of the kind gives the same walk. *)
Lemma pass_fuel (f : normalizer) :
  forall n m kind v,
    String.length kind <= n -> String.length kind <= m ->
    normalize_pass n f kind v = normalize_pass m f kind v.
Proof.
  induction n as [| n IH]; intros m kind v Hn Hm.
  - rewrite !pass_basic by (apply item_kind_empty; lia). reflexivity.
  - destruct m as [| m].
    + rewrite !pass_basic by (apply item_kind_empty; lia). reflexivity.
    + cbn [normalize_pass].
      destruct (item_kind kind) as [item |] eqn:Hitem; [| reflexivity].
      apply item_kind_shorter in Hitem.
      destruct (iterate v) as [items | e]; [| reflexivity].
      do 2 f_equal. apply map_ext. intros x. apply IH; lia.
Qed.

Lemma pass_array (f : normalizer) (kind item : Kind) (items : list value) :
  item_kind kind = Some item ->
  normalize_pass (String.length kind) f kind (VList items)
  = f kind (VList (map (normalize_pass (String.length item) f item) items)).
Proof.
  intros Hitem. pose proof (item_kind_shorter _ _ Hitem) as Hlt.
  destruct (String.length kind) as [| n] eqn:Hlen; [lia |].
  cbn [normalize_pass iterate]. rewrite Hitem.
  do 2 f_equal. apply map_ext. intros x. apply pass_fuel; lia.
Qed.

Lemma fold_basic (normalizers : list normalizer) (kind : Kind) :
  item_kind kind = None ->
  forall v,
    fold_left (fun acc f => normalize_pass (String.length kind) f kind acc)
              normalizers v
    = fold_left (fun acc f => f kind acc) normalizers v.
Proof.
  intros Hk. induction normalizers as [| f rest IH]; intros v; [reflexivity |].
  cbn [fold_left]. rewrite pass_basic by assumption. apply IH.
Qed.

Lemma fold_array (kind item : Kind) :
  item_kind kind = Some item ->
  forall normalizers,
    (forall f l, In f normalizers -> f kind (VList l) = VList l) ->
    forall items,
      fold_left (fun acc f => normalize_pass (String.length kind) f kind acc)
                normalizers (VList items)
      = VList (map (fun x =>
                      fold_left (fun acc f =>
                                   normalize_pass (String.length item) f item acc)
                                normalizers x) items).
Proof.
  intros Hitem. induction normalizers as [| f rest IH]; intros Hid items.
  - cbn [fold_left]. now rewrite map_id.
  - cbn [fold_left]. rewrite (pass_array f kind item items Hitem).
    rewrite Hid by now left.
    rewrite IH by (intros g l Hg; apply Hid; now right).
    now rewrite map_map.
Qed.

Lemma normalizes_by_kind_holds (normalizers : list normalizer) :
  normalizes_by_kind normalizers.
Proof.
  split; [reflexivity | split].
  - intros kind v Hk. unfold normalize. now apply fold_basic.
  - intros kind item items Hitem Hid. unfold normalize.
    now apply fold_array.
Qed.

End NormalizeFacts.

(** ** Schema-driven request formatters *)

Module RpcAbiFacts.

Import Dict DictFacts ArgsFacts.
Local Open Scope list_scope.
Local Open Scope nat_scope.

(** *** Positional schemas *)

Lemma map_abi_data_length (normalizers : list normalizer) :
  forall types data,
    List.length types <= List.length data ->
    List.length (map_abi_data normalizers types data) = List.length types.
Proof.
  induction types as [| t types IH]; intros [| v data] Hlen;
    cbn [map_abi_data List.length] in *; try reflexivity; try lia.
  f_equal. apply IH. lia.
Qed.

Lemma map_abi_data_nth (normalizers : list normalizer) :
  forall types data i t v,
    nth_error types i = Some t -> nth_error data i = Some v ->
    nth_error (map_abi_data normalizers types data) i
    = Some (normalize normalizers t v).
Proof.
  induction types as [| t0 types IH]; intros [| v0 data] [| i] t v Ht Hv;
    cbn [map_abi_data nth_error] in *; try discriminate.
  - congruence.
  - eauto.
Qed.

Lemma map_abi_data_beyond (normalizers : list normalizer) :
  forall types data i,
    List.length types <= i ->
    nth_error (map_abi_data normalizers types data) i = None.
Proof.
  induction types as [| t0 types IH]; intros [| v0 data] [| i] Hi;
    cbn [map_abi_data nth_error List.length] in *; try reflexivity; try lia.
  apply IH. lia.
Qed.

(** *** The factory *)

Section Factory.

Variable set_order : list string -> list string.
Variable normalizers : list normalizer.

Lemma items_ok :
  forall abis fs,
    abi_request_formatter_items set_order normalizers abis = Ok fs ->
    keys fs = keys abis
    /\ Forall2 (fun entry built =>
                  fst entry = fst built
                  /\ formatter_for set_order normalizers (snd entry) (snd built))
               abis fs.
Proof.
  induction abis as [| [m abi] abis IH]; intros fs H.
  - inversion H; subst. split; [reflexivity | constructor].
  - cbn [abi_request_formatter_items] in H. apply rbind_ok in H.
    destruct H as (f & Hf & H). apply rbind_ok in H.
    destruct H as (rest & Hrest & E). inversion E; subst.
    destruct (IH _ Hrest) as (Hkeys & Hall).
    split; [simpl; now f_equal |].
    constructor; [| assumption]. split; [reflexivity |].
    destruct abi; simpl in *; inversion Hf; subst; reflexivity.
Qed.

Lemma items_raise :
  forall abis e,
    abi_request_formatter_items set_order normalizers abis = Raise e ->
    e = TypeError /\ exists m repr, In (m, AbiOther repr) abis.
Proof.
  induction abis as [| [m abi] abis IH]; intros e H; [discriminate |].
  cbn [abi_request_formatter_items] in H.
  destruct abi as [types | abi_dict | repr]; cbn [rbind] in H.
  - destruct (abi_request_formatter_items set_order normalizers abis)
      as [fs | e'] eqn:Hrest; [discriminate |].
    inversion H; subst. destruct (IH _ eq_refl) as (-> & m' & r & Hin).
    split; [reflexivity |]. exists m', r. now right.
  - destruct (abi_request_formatter_items set_order normalizers abis)
      as [fs | e'] eqn:Hrest; [discriminate |].
    inversion H; subst. destruct (IH _ eq_refl) as (-> & m' & r & Hin).
    split; [reflexivity |]. exists m', r. now right.
  - inversion H; subst. split; [reflexivity |]. exists m, repr. now left.
Qed.

Lemma items_total :
  forall abis,
    (forall m abi, In (m, abi) abis -> is_list_or_dict abi) ->
    exists fs, abi_request_formatter_items set_order normalizers abis = Ok fs.
Proof.
  intros abis Hall.
  destruct (abi_request_formatter_items set_order normalizers abis)
    as [fs | e] eqn:H; [eauto |].
  destruct (items_raise _ _ H) as (_ & m & repr & Hin).
  destruct (Hall _ _ Hin).
Qed.

Lemma forall2_get {A B} (R : string * A -> string * B -> Prop)
    (xs : t A) (ys : t B) :
  Forall2 (fun x y => fst x = fst y /\ R x y) xs ys ->
  forall k a, get k xs = Some a ->
    exists b, get k ys = Some b /\ R (k, a) (k, b).
Proof.
  induction 1 as [| [kx a0] [ky b0] xs ys [Hk HR] Hrest IH]; intros k a Hget;
    simpl in *; [discriminate |]. subst ky.
  destruct (String.eqb_spec k kx) as [-> | Hne]; [| auto].
  inversion Hget; subst. eauto.
Qed.

(** In a table with distinct method names, the formatter stored under a
    method is the one built from that method's schema. *)
Lemma built_for_method (abis : t abi_types) (fs : t args_formatter)
    (method : string) (abi : abi_types) :
  wf abis ->
  abi_request_formatters set_order normalizers abis = Ok fs ->
  get method abis = Some abi ->
  exists f, get method fs = Some f
            /\ formatter_for set_order normalizers abi f.
Proof.
  intros Hwf H Hget. unfold abi_request_formatters in H.
  apply rbind_ok in H. destruct H as (items & Hitems & E).
  inversion E; subst fs.
  destruct (items_ok _ _ Hitems) as (Hkeys & Hall).
  rewrite of_items_wf by (unfold wf; now rewrite Hkeys).
  apply (forall2_get
           (fun x y => formatter_for set_order normalizers (snd x) (snd y))
           _ _ Hall _ _ Hget).
Qed.

End Factory.

End RpcAbiFacts.

Lemma distinct_NoDup (ks : list string) : distinct ks = true -> NoDup ks.
Proof.
  induction ks as [| k ks IH]; simpl; intros H; [constructor |].
  apply andb_true_iff in H. destruct H as [Hk Hks].
  constructor; [| auto]. intros Hin.
  apply negb_true_iff in Hk.
  assert (existsb (String.eqb k) ks = true); [| congruence].
  apply existsb_exists. exists k. split; [assumption | apply String.eqb_refl].
Qed.

Lemma RPC_ABIS_wf : Dict.wf RPC_ABIS.
Proof. apply distinct_NoDup. reflexivity. Qed.

(** C3, as the code has it: for a method whose schema is a list of [N]
    kinds and an argument list of at least [N] values that can be walked with
    their kinds, the request formatter built for the method returns exactly
    [N] values: position [i] holds argument [i] normalized by its declared
    kind (the argument itself for a null kind, the chain of normalizers left
    to right for a kind that is not an array, every element by the item kind
    for an array kind).  The arguments from position [N] on are paired with
    no kind and are not in the result. *)
Theorem positional_schema_formatting
    (set_order : list string -> list string) (normalizers : list normalizer)
    (abis : Dict.t abi_types) (fs : Dict.t args_formatter)
    (method : string) (types : list (option Kind)) (data : list value) :
  Dict.wf abis ->
  abi_request_formatters set_order normalizers abis = Ok fs ->
  Dict.get method abis = Some (AbiList types) ->
  (List.length types <= List.length data)%nat ->
  (forall i t v,
     nth_error types i = Some t -> nth_error data i = Some v ->
     iterable_as t v = true) ->
  exists f out,
    Dict.get method fs = Some f
    /\ f data = Ok out
    /\ List.length out = List.length types
    /\ (forall i t v,
          nth_error types i = Some t -> nth_error data i = Some v ->
          nth_error out i = Some (normalize normalizers t v))
    /\ (forall i, (List.length types <= i)%nat -> nth_error out i = None)
    /\ normalizes_by_kind normalizers.
Proof.
  intros Hwf Hbuild Hget Hlen _.
  destruct (RpcAbiFacts.built_for_method _ _ _ _ _ _ Hwf Hbuild Hget)
    as (f & Hf & Hfor).
  simpl in Hfor. subst f.
  eexists. eexists. split; [exact Hf | split; [reflexivity |]].
  split; [now apply RpcAbiFacts.map_abi_data_length |].
  split; [apply RpcAbiFacts.map_abi_data_nth |].
  split; [apply RpcAbiFacts.map_abi_data_beyond |].
  apply NormalizeFacts.normalizes_by_kind_holds.
Qed.

Lemma positional_schema_formatting_witness :
  exists f out,
    Dict.get "eth_getProof"
      match abi_request_formatters (fun l => l) [sample_normalizer] RPC_ABIS with
      | Ok fs => fs
      | Raise _ => []
      end = Some f
    /\ f [VStr "d3cd"; VList [VInt 0; VInt 1]; VStr "latest"] = Ok out
    /\ List.length out = 3%nat
    /\ (forall i t v,
          nth_error [Some "address"; Some "uint[]"; None] i = Some t ->
          nth_error [VStr "d3cd"; VList [VInt 0; VInt 1]; VStr "latest"] i
          = Some v ->
          nth_error out i = Some (normalize [sample_normalizer] t v))
    /\ (forall i, (3 <= i)%nat -> nth_error out i = None)
    /\ normalizes_by_kind [sample_normalizer].
Proof.
  apply (positional_schema_formatting (fun l => l) [sample_normalizer] RPC_ABIS
           _ "eth_getProof" [Some "address"; Some "uint[]"; None]
           [VStr "d3cd"; VList [VInt 0; VInt 1]; VStr "latest"]).
  - exact RPC_ABIS_wf.
  - reflexivity.
  - reflexivity.
  - simpl. lia.
  - intros [| [| [| i]]] t v Ht Hv; simpl in Ht, Hv;
      try (destruct i; discriminate);
      inversion Ht; inversion Hv; subst; reflexivity.
Defined.

(** C3 as stated fails: the formatter built for eth_getBalance, whose
    schema has two kinds, returns two values for three arguments; the third
    argument is not returned unchanged, it is not returned. *)
Lemma argument_beyond_schema_dropped :
  match abi_request_formatters (fun l => l) [sample_normalizer] RPC_ABIS with
  | Ok fs =>
      match Dict.get "eth_getBalance" fs with
      | Some f =>
          f [VStr "d3cd"; VStr "latest"; VInt 7]
          = Ok [VStr "0xd3cd"; VStr "latest"]
          /\ (forall out,
                f [VStr "d3cd"; VStr "latest"; VInt 7] = Ok out ->
                nth_error out 2
                <> nth_error [VStr "d3cd"; VStr "latest"; VInt 7] 2)
      | None => False
      end
  | Raise _ => False
  end.
Proof.
  cbn. split; [reflexivity |].
  intros out H. inversion H; subst. discriminate.
Qed.

Example eth_getProof_formatted :
  match abi_request_formatters (fun l => l) [sample_normalizer] RPC_ABIS with
  | Ok fs =>
      match Dict.get "eth_getProof" fs with
      | Some f => f [VStr "d3cd"; VList [VStr "aa"; VInt 1]; VStr "latest"]
      | None => Raise KeyError
      end
  | Raise e => Raise e
  end = Ok [VStr "0xd3cd"; VList [VStr "aa"; VInt 1]; VStr "latest"].
Proof. reflexivity. Qed.

(** ** Keyed schemas *)

Module KeyedFacts.

Import Dict DictFacts ArgsFacts.
Local Open Scope list_scope.

Lemma existsb_eqb_in (k : string) (ks : list string) :
  existsb (String.eqb k) ks = true <-> In k ks.
Proof.
  rewrite existsb_exists. split.
  - intros (x & Hin & E). apply String.eqb_eq in E. now subst.
  - intros Hin. exists k. split; [assumption | apply String.eqb_refl].
Qed.

Lemma dedup_in (k : string) (ks : list string) : In k (dedup ks) <-> In k ks.
Proof.
  induction ks as [| k0 ks IH]; simpl; [tauto |].
  destruct (existsb (String.eqb k0) ks) eqn:Hdup.
  - apply existsb_eqb_in in Hdup. rewrite IH. intuition congruence.
  - simpl. rewrite IH. tauto.
Qed.

Lemma dedup_nodup (ks : list string) : NoDup (dedup ks).
Proof.
  induction ks as [| k0 ks IH]; simpl; [constructor |].
  destruct (existsb (String.eqb k0) ks) eqn:Hdup; [assumption |].
  constructor; [| assumption]. rewrite dedup_in, <- existsb_eqb_in. congruence.
Qed.

Section Keyed.

Variable set_order : list string -> list string.
Hypothesis set_order_perm : forall l, Permutation (set_order l) l.

Variable normalizers : list normalizer.
Variable abi_dict : t Kind.
Variable data : t value.

Lemma common_fields_in (k : string) :
  In k (common_fields set_order abi_dict data)
  <-> In k (keys abi_dict) /\ In k (keys data).
Proof.
  unfold common_fields. split.
  - intros Hin. apply (Permutation_in _ (set_order_perm _)) in Hin.
    apply filter_In in Hin. now rewrite dedup_in, mem_in in Hin.
  - intros [Ha Hd].
    apply (Permutation_in _ (Permutation_sym (set_order_perm _))).
    apply filter_In. now rewrite dedup_in, mem_in.
Qed.

Lemma common_fields_nodup : NoDup (common_fields set_order abi_dict data).
Proof.
  unfold common_fields.
  apply (Permutation_NoDup (Permutation_sym (set_order_perm _))).
  apply NoDup_filter, dedup_nodup.
Qed.

Lemma getitems_ok {V} (d : t V) :
  forall ks,
    (forall k, In k ks -> In k (keys d)) ->
    exists vs, getitems ks d = Ok vs
               /\ Forall2 (fun k v => get k d = Some v) ks vs.
Proof.
  induction ks as [| k ks IH]; intros Hall.
  - exists []. split; [reflexivity | constructor].
  - destruct IH as (vs & Hvs & Hrel); [intros; apply Hall; now right |].
    destruct (get k d) as [v |] eqn:Hk.
    + exists (v :: vs). split.
      * cbn [getitems]. unfold getitem. now rewrite Hk, Hvs.
      * now constructor.
    + exfalso. apply get_none_iff in Hk. apply Hk, Hall. now left.
Qed.

(** The pairs zipped from the fields and their formatted values. *)
Lemma zipped_fields :
  forall fields kinds values,
    Forall2 (fun k kind => get k abi_dict = Some kind) fields kinds ->
    Forall2 (fun k v => get k data = Some v) fields values ->
    let zipped :=
      combine fields (map_abi_data normalizers (map Some kinds) values) in
    keys zipped = fields
    /\ forall k v', In (k, v') zipped ->
         formatted_field normalizers abi_dict data k = Some v'.
Proof.
  induction fields as [| k0 fields IH]; intros kinds values Hk Hv;
    inversion Hk as [| ? kind ? kinds' Hk0 Hk']; subst;
    inversion Hv as [| ? v ? values' Hv0 Hv']; subst; cbn zeta.
  - split; [reflexivity | intros ? ? []].
  - destruct (IH _ _ Hk' Hv') as (Hkeys & Hin). simpl. split.
    + now f_equal.
    + intros k v' [E | Hrest]; [| auto].
      inversion E; subst. unfold formatted_field. now rewrite Hv0, Hk0.
Qed.

Lemma formatted_field_untouched (k : string) :
  ~ In k (common_fields set_order abi_dict data) ->
  formatted_field normalizers abi_dict data k = get k data.
Proof.
  intros Hnot. unfold formatted_field.
  destruct (get k data) as [v |] eqn:Hd; [| reflexivity].
  destruct (get k abi_dict) as [kind |] eqn:Ha; [| reflexivity].
  exfalso. apply Hnot, common_fields_in. split.
  - intros. destruct (in_dec string_dec k (keys abi_dict)); [assumption |].
    apply get_none_iff in n. congruence.
  - destruct (in_dec string_dec k (keys data)); [assumption |].
    apply get_none_iff in n. congruence.
Qed.

Lemma apply_abi_formatters_to_dict_ok :
  wf data ->
  exists out,
    apply_abi_formatters_to_dict set_order normalizers abi_dict (VDict data)
    = Ok (VDict out)
    /\ keys out = keys data
    /\ wf out
    /\ forall k, get k out = formatted_field normalizers abi_dict data k.
Proof.
  intros Hwf. cbn [apply_abi_formatters_to_dict].
  set (fields := common_fields set_order abi_dict data).
  destruct (getitems_ok abi_dict fields) as (kinds & Hkinds & Hk).
  { intros k Hin. now apply common_fields_in in Hin. }
  destruct (getitems_ok data fields) as (values & Hvalues & Hv).
  { intros k Hin. now apply common_fields_in in Hin. }
  rewrite Hkinds, Hvalues. cbn [rbind].
  destruct (zipped_fields _ _ _ Hk Hv) as (Hzk & Hzin).
  set (zipped := combine fields
                   (map_abi_data normalizers (map Some kinds) values)) in *.
  assert (Hzwf : wf zipped)
    by (unfold wf; rewrite Hzk; apply common_fields_nodup).
  rewrite of_items_wf by assumption.
  assert (Hkeys : keys (update data zipped) = keys data).
  { apply keys_update_present. intros k Hin. rewrite Hzk in Hin.
    now apply common_fields_in in Hin. }
  eexists. split; [reflexivity |]. split; [assumption |].
  split; [unfold wf; now rewrite Hkeys |].
  intros k. rewrite get_update by assumption.
  destruct (get k zipped) as [v' |] eqn:Hz.
  - symmetry. apply Hzin. now apply get_some_in.
  - symmetry. apply formatted_field_untouched.
    apply get_none_iff in Hz. now rewrite Hzk in Hz.
Qed.

End Keyed.

End KeyedFacts.

(** C4: for a keyed schema and a payload record whose values can be
    walked with their kinds, the formatter returns a record with the
    payload's keys (none dropped, none duplicated, in the payload's order) in
    which a field named in the schema holds the payload value normalized by
    the declared kind (the chain of normalizers left to right for a kind that
    is not an array, every element by the item kind for an array kind) and
    every other field holds the payload value unchanged; the formatter built
    for a keyed method does this to the first argument and passes the other
    arguments on.  The order in which Python walks the set of common fields
    does not matter. *)
Theorem keyed_schema_formatting
    (set_order : list string -> list string) (normalizers : list normalizer)
    (abi_dict : Dict.t Kind) (data : Dict.t value) :
  (forall l, Permutation (set_order l) l) ->
  Dict.wf data ->
  (forall k kind v,
     Dict.get k abi_dict = Some kind -> Dict.get k data = Some v ->
     iterable_as (Some kind) v = true) ->
  exists out,
    apply_abi_formatters_to_dict set_order normalizers abi_dict (VDict data)
    = Ok (VDict out)
    /\ Dict.keys out = Dict.keys data
    /\ Dict.wf out
    /\ (forall k, Dict.get k out
                  = formatted_field normalizers abi_dict data k)
    /\ normalizes_by_kind normalizers
    /\ (forall abis fs method rest,
          Dict.wf abis ->
          abi_request_formatters set_order normalizers abis = Ok fs ->
          Dict.get method abis = Some (AbiDict abi_dict) ->
          exists f, Dict.get method fs = Some f
                    /\ f (VDict data :: rest) = Ok (VDict out :: rest)).
Proof.
  intros Hperm Hwf _.
  destruct (KeyedFacts.apply_abi_formatters_to_dict_ok
              set_order Hperm normalizers abi_dict data Hwf)
    as (out & Hout & Hkeys & Hwfo & Hget).
  exists out. repeat (split; [assumption |]).
  split; [apply NormalizeFacts.normalizes_by_kind_holds |].
  intros abis fs method rest Hwfa Hbuild Hm.
  destruct (RpcAbiFacts.built_for_method _ _ _ _ _ _ Hwfa Hbuild Hm)
    as (f & Hf & Hfor).
  simpl in Hfor. subst f. eexists. split; [exact Hf |].
  unfold apply_formatter_at_index. cbn [List.length Nat.ltb Nat.leb Nat.add format_nth].
  now rewrite Hout.
Qed.

Lemma keyed_schema_formatting_witness :
  exists out,
    apply_abi_formatters_to_dict (@rev string) [sample_normalizer]
      FILTER_PARAMS_ABIS (VDict sample_filter)
    = Ok (VDict out)
    /\ Dict.keys out = Dict.keys sample_filter
    /\ Dict.wf out
    /\ (forall k, Dict.get k out
                  = formatted_field [sample_normalizer] FILTER_PARAMS_ABIS
                      sample_filter k)
    /\ normalizes_by_kind [sample_normalizer]
    /\ (forall abis fs method rest,
          Dict.wf abis ->
          abi_request_formatters (@rev string) [sample_normalizer] abis = Ok fs ->
          Dict.get method abis = Some (AbiDict FILTER_PARAMS_ABIS) ->
          exists f, Dict.get method fs = Some f
                    /\ f (VDict sample_filter :: rest) = Ok (VDict out :: rest)).
Proof.
  apply (keyed_schema_formatting (@rev string) [sample_normalizer]
           FILTER_PARAMS_ABIS sample_filter).
  - intros l. apply Permutation_sym, Permutation_rev.
  - apply distinct_NoDup. reflexivity.
  - intros k kind v Hk Hv. unfold FILTER_PARAMS_ABIS in Hk. simpl in Hk, Hv.
    destruct (String.eqb k "to").
    + inversion Hk; subst.
      destruct (String.eqb k "fromBlock"); [inversion Hv; reflexivity |].
      destruct (String.eqb k "address"); inversion Hv; reflexivity.
    + destruct (String.eqb k "address") eqn:Ea; [| discriminate].
      inversion Hk; subst. apply String.eqb_eq in Ea. subst k.
      simpl in Hv. inversion Hv; subst. reflexivity.
Defined.

Example sample_filter_formatted :
  apply_abi_formatters_to_dict (@rev string) [sample_normalizer]
    FILTER_PARAMS_ABIS (VDict sample_filter)
  = Ok (VDict [("fromBlock", VStr "0x1");
               ("address", VList [VStr "0xd3cd"; VStr "0x7e5f"]);
               ("to", VStr "0xaa")]).
Proof. reflexivity. Qed.

Example sample_payload_formatted :
  apply_abi_formatters_to_dict (@rev string) [sample_normalizer]
    TRANSACTION_PARAMS_ABIS (VDict sample_payload)
  = Ok (VDict [("to", VStr "0xd3cd"); ("chainId", VInt 1); ("value", VInt 5);
               ("from", VStr "0x7e5f")]).
Proof. reflexivity. Qed.

(** ** Schema errors are raised when the formatters are built *)

Module BuildFacts.

Import Dict DictFacts ArgsFacts.
Local Open Scope list_scope.








End BuildFacts.


Example build_rejects_bad_entry :
  abi_request_formatters (fun l => l) [sample_normalizer]
    [("eth_getBalance", AbiList [Some "address"; None]);
     ("eth_coinbase", AbiOther "'address'")]
  = Raise TypeError.
Proof. reflexivity. Qed.

(** ** Default transaction fields *)

Module InjectorFacts.

Import Dict DictFacts.
Local Open Scope list_scope.

Section Facts.

Context {World : Type}.
Implicit Types (w : World) (tx : t value).
Variable web3 : Web3 World.

Lemma bind_ok {A B} (m : M World A) (k : A -> M World B) w a w' :
  m w = (Ok a, w') -> bind m k w = k a w'.
Proof. unfold bind. now intros ->. Qed.

Lemma bind_raise {A B} (m : M World A) (k : A -> M World B) w e w' :
  m w = (Raise e, w') -> bind m k w = (Raise e, w').
Proof. unfold bind. now intros ->. Qed.

Lemma present_not_none_true field tx :
  present_not_none field tx = true
  <-> exists v, get field tx = Some v /\ v <> VNone.
Proof.
  unfold present_not_none. destruct (get field tx) as [v |].
  - destruct v; simpl; split; try discriminate; eauto;
      try (intros _; eexists; split; [reflexivity | discriminate]).
    intros (v & E & Hne). inversion E; subst. congruence.
  - split; [discriminate | intros (v & E & _); discriminate].
Qed.

Lemma present_not_none_false field tx :
  present_not_none field tx = false
  <-> get field tx = None \/ get field tx = Some VNone.
Proof.
  unfold present_not_none. destruct (get field tx) as [v |].
  - destruct v; simpl; intuition congruence.
  - intuition.
Qed.

Lemma fill_default_present field guess tx w :
  present_not_none field tx = true ->
  fill_default field guess web3 tx w = (Ok tx, w).
Proof. unfold fill_default. now intros ->. Qed.

Lemma fill_default_missing field guess tx :
  present_not_none field tx = false ->
  fill_default field guess web3 tx
  = bind (guess web3 tx) (fun guess_val => ret (set field guess_val tx)).
Proof. unfold fill_default. now intros ->. Qed.

(** Filling one field leaves every other field as it was. *)
Lemma fill_default_other field guess tx w filled w' other :
  fill_default field guess web3 tx w = (Ok filled, w') ->
  other <> field ->
  get other filled = get other tx.
Proof.
  unfold fill_default. destruct (present_not_none field tx).
  - intros E _. inversion E. reflexivity.
  - unfold bind, ret. destruct (guess web3 tx w) as [[gv | e] w1];
      intros E Hne; inversion E; subst.
    now apply get_set_neq.
Qed.

Lemma guess_from_resolution tx w r w' :
  from_resolution web3 w r w' -> guess_from web3 tx w = (Ok r, w').
Proof.
  intros H. unfold guess_from.
  destruct H as [w w1 c Hc Hne | w w1 w2 a others Hc Ha | w w1 w2 Hc Ha];
    rewrite (bind_ok _ _ _ _ _ Hc).
  - destruct c; simpl; try reflexivity. congruence.
  - simpl. unfold try_except. rewrite (bind_ok _ _ _ _ _ Ha). reflexivity.
  - simpl. unfold try_except. rewrite (bind_raise _ _ _ _ _ Ha). reflexivity.
Qed.

Lemma guess_from_no_accounts tx w w1 w2 :
  coinbase web3 w = (Ok VNone, w1) ->
  accounts web3 w1 = (Ok [], w2) ->
  guess_from web3 tx w = (Raise IndexError, w2).
Proof.
  intros Hc Ha. unfold guess_from. rewrite (bind_ok _ _ _ _ _ Hc). simpl.
  unfold try_except. rewrite (bind_ok _ _ _ _ _ Ha). reflexivity.
Qed.

Lemma middleware_other (make_request : make_request_t World) method params :
  ~ In method default_from_methods ->
  default_transaction_fields_middleware make_request web3 method params
  = make_request method params.
Proof.
  unfold default_from_methods, default_transaction_fields_middleware.
  simpl. intros Hnot.
  destruct (String.eqb_spec method "eth_call");
    [subst; exfalso; apply Hnot; auto |].
  destruct (String.eqb_spec method "eth_estimateGas");
    [subst; exfalso; apply Hnot; auto |].
  destruct (String.eqb_spec method "eth_sendTransaction");
    [subst; exfalso; apply Hnot; auto |].
  reflexivity.
Qed.

Lemma middleware_eth_call (make_request : make_request_t World) tx rest :
  default_transaction_fields_middleware make_request web3 "eth_call"
    (VDict tx :: rest)
  = bind (fill_default "from" guess_from web3 tx) (fun with_from =>
    bind (fill_default "gas" guess_gas web3 with_from) (fun filled =>
    make_request "eth_call" (VDict filled :: rest))).
Proof. reflexivity. Qed.

Lemma middleware_from_only (make_request : make_request_t World)
    method tx rest :
  method = "eth_estimateGas" \/ method = "eth_sendTransaction" ->
  default_transaction_fields_middleware make_request web3 method
    (VDict tx :: rest)
  = bind (fill_default "from" guess_from web3 tx) (fun filled =>
    make_request method (VDict filled :: rest)).
Proof. intros [-> | ->]; reflexivity. Qed.

End Facts.

End InjectorFacts.

(** C6: when the field is present in the transaction with a value other
    than None, [fill_default] returns the transaction itself and the world is
    as it was, whatever the guess function is: the guess function is not
    called.  When the field is absent or None the result is the guess
    function's value stored under the field. *)
Theorem fill_default_never_overwrites {World : Type}
    (field : string) (guess_func : Web3 World -> Dict.t value -> M World value)
    (web3 : Web3 World) (transaction : Dict.t value) (v : value) (w : World) :
  Dict.get field transaction = Some v ->
  v <> VNone ->
  fill_default field guess_func web3 transaction w = (Ok transaction, w)
  /\ (forall other_guess,
        fill_default field other_guess web3 transaction w
        = fill_default field guess_func web3 transaction w)
  /\ (forall other : Dict.t value,
        Dict.get field other = None \/ Dict.get field other = Some VNone ->
        fill_default field guess_func web3 other
        = (guess_val <- guess_func web3 other ;;
           ret (Dict.set field guess_val other))).
Proof.
  intros Hget Hne.
  assert (Hp : present_not_none field transaction = true)
    by (apply InjectorFacts.present_not_none_true; eauto).
  split; [| split].
  - now apply InjectorFacts.fill_default_present.
  - intros other_guess. now rewrite !InjectorFacts.fill_default_present.
  - intros other Hmissing. apply InjectorFacts.fill_default_missing.
    now apply InjectorFacts.present_not_none_false.
Qed.

Lemma fill_default_never_overwrites_witness :
  fill_default "from" (fun _ _ => raise ValueError) web3_no_accounts
    [("from", VStr "0x7e5f"); ("value", VInt 1)] tt
  = (Ok [("from", VStr "0x7e5f"); ("value", VInt 1)], tt).
Proof.
  apply (fill_default_never_overwrites "from" (fun _ _ => raise ValueError)
           web3_no_accounts [("from", VStr "0x7e5f"); ("value", VInt 1)]
           (VStr "0x7e5f") tt).
  - reflexivity.
  - discriminate.
Defined.

(** C1 (the code departs from the claim): with no default account and an
    empty account list, [web3.eth.accounts[0]] raises [IndexError], which the
    [except KeyError] clause of [guess_from] does not catch; [guess_from]
    raises instead of returning None, and the middleware raises without
    forwarding the call. *)
Theorem empty_account_list_raises {World : Type}
    (make_request : make_request_t World) (web3 : Web3 World)
    (method : string) (transaction : Dict.t value) (rest : list value)
    (w w1 w2 : World) :
  In method default_from_methods ->
  Dict.get "from" transaction = None \/ Dict.get "from" transaction = Some VNone ->
  coinbase web3 w = (Ok VNone, w1) ->
  accounts web3 w1 = (Ok [], w2) ->
  guess_from web3 transaction w = (Raise IndexError, w2)
  /\ default_transaction_fields_middleware make_request web3 method
       (VDict transaction :: rest) w
     = (Raise IndexError, w2).
Proof.
  intros Hm Hfrom Hc Ha.
  pose proof (InjectorFacts.guess_from_no_accounts web3 transaction _ _ _ Hc Ha)
    as Hguess.
  split; [assumption |].
  apply InjectorFacts.present_not_none_false in Hfrom.
  assert (Hfill : fill_default "from" guess_from web3 transaction w
                  = (Raise IndexError, w2)).
  { rewrite InjectorFacts.fill_default_missing by assumption.
    now apply InjectorFacts.bind_raise. }
  unfold default_from_methods in Hm. simpl in Hm.
  destruct Hm as [<- | [<- | [<- | []]]].
  - rewrite InjectorFacts.middleware_eth_call.
    now apply InjectorFacts.bind_raise.
  - rewrite InjectorFacts.middleware_from_only by auto.
    now apply InjectorFacts.bind_raise.
  - rewrite InjectorFacts.middleware_from_only by auto.
    now apply InjectorFacts.bind_raise.
Qed.

Lemma empty_account_list_raises_witness :
  guess_from web3_no_accounts [("to", VStr "0xd3cd")] tt = (Raise IndexError, tt)
  /\ default_transaction_fields_middleware echo web3_no_accounts
       "eth_sendTransaction" [VDict [("to", VStr "0xd3cd")]] tt
     = (Raise IndexError, tt).
Proof.
  apply (empty_account_list_raises echo web3_no_accounts "eth_sendTransaction"
           [("to", VStr "0xd3cd")] [] tt tt tt).
  - simpl. tauto.
  - left. reflexivity.
  - reflexivity.
  - reflexivity.
Defined.

(** C2, as the code has it: the default sender is filled for exactly
    eth_call, eth_estimateGas and eth_sendTransaction.  Any other method, the
    personal transaction methods included, is forwarded with its parameters
    unchanged.  For the three methods, when 'from' is absent or None in the
    first argument, the sender is the default account if there is one, else
    the first account of a non-empty account list, else None when the account
    lookup raises [KeyError]; the call is forwarded with that sender (for
    eth_call after the gas default is filled as well) and the other arguments
    unchanged. *)
Theorem default_from_for_three_methods {World : Type}
    (make_request : make_request_t World) (web3 : Web3 World)
    (method : string) (params : list value) (w : World) :
  (~ In method default_from_methods ->
     default_transaction_fields_middleware make_request web3 method params w
     = make_request method params w)
  /\ (In method default_from_methods ->
      forall transaction rest r w',
        params = VDict transaction :: rest ->
        Dict.get "from" transaction = None
        \/ Dict.get "from" transaction = Some VNone ->
        from_resolution web3 w r w' ->
        default_transaction_fields_middleware make_request web3 method params w
        = (if String.eqb method "eth_call"
           then filled <- fill_default "gas" guess_gas web3
                            (Dict.set "from" r transaction) ;;
                make_request method (VDict filled :: rest)
           else make_request method
                  (VDict (Dict.set "from" r transaction) :: rest)) w'
        /\ forall filled w'',
             fill_default "gas" guess_gas web3 (Dict.set "from" r transaction) w'
             = (Ok filled, w'') ->
             Dict.get "from" filled = Some r).
Proof.
  split.
  - intros Hnot. now rewrite InjectorFacts.middleware_other.
  - intros Hm transaction rest r w' -> Hfrom Hres.
    apply InjectorFacts.present_not_none_false in Hfrom.
    assert (Hfill : fill_default "from" guess_from web3 transaction w
                    = (Ok (Dict.set "from" r transaction), w')).
    { rewrite InjectorFacts.fill_default_missing by assumption.
      rewrite (InjectorFacts.bind_ok _ _ _ _ _
                 (InjectorFacts.guess_from_resolution web3 transaction _ _ _ Hres)).
      reflexivity. }
    split.
    + unfold default_from_methods in Hm. simpl in Hm.
      destruct Hm as [<- | [<- | [<- | []]]].
      * rewrite InjectorFacts.middleware_eth_call.
        now rewrite (InjectorFacts.bind_ok _ _ _ _ _ Hfill).
      * rewrite InjectorFacts.middleware_from_only by auto.
        now rewrite (InjectorFacts.bind_ok _ _ _ _ _ Hfill).
      * rewrite InjectorFacts.middleware_from_only by auto.
        now rewrite (InjectorFacts.bind_ok _ _ _ _ _ Hfill).
    + intros filled w'' Hgas.
      rewrite (InjectorFacts.fill_default_other web3 _ _ _ _ _ _ "from" Hgas)
        by discriminate.
      apply DictFacts.get_set_eq.
Qed.

Lemma default_from_for_three_methods_witness :
  default_transaction_fields_middleware echo web3_accounts_only
    "eth_estimateGas" [VDict [("to", VStr "0xd3cd")]; VStr "latest"] tt
  = echo "eth_estimateGas"
      [VDict [("to", VStr "0xd3cd"); ("from", VStr "0xa1")]; VStr "latest"] tt.
Proof.
  destruct (default_from_for_three_methods echo web3_accounts_only
              "eth_estimateGas" [VDict [("to", VStr "0xd3cd")]; VStr "latest"] tt)
    as (_ & Hfilled).
  destruct (Hfilled ltac:(simpl; tauto) [("to", VStr "0xd3cd")] [VStr "latest"]
              (VStr "0xa1") tt eq_refl (or_introl eq_refl)) as (Hcall & _).
  - apply (from_first_account web3_accounts_only tt tt tt (VStr "0xa1")
             [VStr "0xa2"]); reflexivity.
  - exact Hcall.
Defined.

(** C2 as stated fails: a personal_sendTransaction call (and the older
    personal_signAndSendTransaction name) whose first argument has no 'from'
    is forwarded as it came, although the backend has a default account. *)
Lemma personal_sendTransaction_not_filled :
  default_transaction_fields_middleware echo web3_with_coinbase
    "personal_sendTransaction" [VDict [("to", VStr "0xd3cd")]; VStr "secret"] tt
  = echo "personal_sendTransaction"
      [VDict [("to", VStr "0xd3cd")]; VStr "secret"] tt
  /\ default_transaction_fields_middleware echo web3_with_coinbase
       "personal_sendTransaction" [VDict [("to", VStr "0xd3cd")]; VStr "secret"] tt
     <> echo "personal_sendTransaction"
          [VDict [("to", VStr "0xd3cd"); ("from", VStr "0xc0")]; VStr "secret"] tt
  /\ default_transaction_fields_middleware echo web3_with_coinbase
       "personal_signAndSendTransaction"
       [VDict [("to", VStr "0xd3cd")]; VStr "secret"] tt
     = echo "personal_signAndSendTransaction"
         [VDict [("to", VStr "0xd3cd")]; VStr "secret"] tt
  /\ guess_from web3_with_coinbase [("to", VStr "0xd3cd")] tt
     = (Ok (VStr "0xc0"), tt).
Proof.
  split; [reflexivity | split; [discriminate | split; reflexivity]].
Qed.

(** C7: for eth_call, when the first argument has no 'gas' value (absent
    or None), the forwarded transaction carries 'gas' equal to twice the gas
    estimate of the transaction being filled, that is the first argument
    after its default sender is in place.  For any method other than
    eth_call the middleware does not depend on gas estimation at all, and
    what it forwards has the 'gas' field of the caller's first argument. *)
Theorem default_gas_only_for_eth_call {World : Type}
    (make_request : make_request_t World) (web3 : Web3 World)
    (transaction : Dict.t value) (rest : list value)
    (with_from : Dict.t value) (g : Z) (w w1 w2 : World) :
  Dict.get "gas" transaction = None \/ Dict.get "gas" transaction = Some VNone ->
  fill_default "from" guess_from web3 transaction w = (Ok with_from, w1) ->
  estimateGas web3 with_from w1 = (Ok g, w2) ->
  default_transaction_fields_middleware make_request web3 "eth_call"
    (VDict transaction :: rest) w
  = make_request "eth_call"
      (VDict (Dict.set "gas" (VInt (g * 2)) with_from) :: rest) w2
  /\ (forall method params w0,
        method <> "eth_call" ->
        (forall estimate mr,
           default_transaction_fields_middleware mr
             (set_estimateGas web3 estimate) method params w0
           = default_transaction_fields_middleware mr web3 method params w0)
        /\ ((exists e w', forall mr,
               default_transaction_fields_middleware mr web3 method params w0
               = (Raise e, w'))
            \/ (exists params' w',
                  (forall mr,
                     default_transaction_fields_middleware mr web3 method params w0
                     = mr method params' w')
                  /\ gas_field params' = gas_field params))).
Proof.
  intros Hgas Hfrom Hest. split.
  - rewrite InjectorFacts.middleware_eth_call.
    rewrite (InjectorFacts.bind_ok _ _ _ _ _ Hfrom).
    assert (Hmissing : present_not_none "gas" with_from = false).
    { apply InjectorFacts.present_not_none_false.
      now rewrite (InjectorFacts.fill_default_other web3 _ _ _ _ _ _ "gas" Hfrom)
        by discriminate. }
    rewrite InjectorFacts.fill_default_missing by assumption.
    unfold guess_gas, bind, ret. now rewrite Hest.
  - intros method params w0 Hne.
    unfold default_transaction_fields_middleware.
    destruct (String.eqb_spec method "eth_call") as [E | _]; [contradiction |].
    destruct (String.eqb method "eth_estimateGas"
              || String.eqb method "eth_sendTransaction").
    + split; [reflexivity |].
      destruct params as [| first others].
      * left. exists IndexError, w0. reflexivity.
      * destruct first as [| b | n | s | items | tx];
          try (left; exists TypeError, w0; reflexivity).
        cbn [first_transaction].
        destruct (fill_default "from" guess_from web3 tx w0) as [[filled | e] w']
          eqn:Hfill.
        -- right. exists (VDict filled :: others), w'. split.
           ++ intros mr. unfold bind at 1. unfold ret at 1.
              now rewrite (InjectorFacts.bind_ok _ _ _ _ _ Hfill).
           ++ simpl.
              now apply (InjectorFacts.fill_default_other web3 _ _ _ _ _ _ "gas"
                           Hfill).
        -- left. exists e, w'. intros mr. unfold bind at 1. unfold ret at 1.
           now rewrite (InjectorFacts.bind_raise _ _ _ _ _ Hfill).
    + split; [reflexivity |]. right. exists params, w0. split; reflexivity.
Qed.

Lemma default_gas_only_for_eth_call_witness :
  default_transaction_fields_middleware echo web3_accounts_only "eth_call"
    [VDict [("to", VStr "0xd3cd")]; VStr "latest"] tt
  = echo "eth_call"
      [VDict [("to", VStr "0xd3cd"); ("from", VStr "0xa1"); ("gas", VInt 42000)];
       VStr "latest"] tt.
Proof.
  exact (proj1 (default_gas_only_for_eth_call echo web3_accounts_only
                  [("to", VStr "0xd3cd")] [VStr "latest"]
                  [("to", VStr "0xd3cd"); ("from", VStr "0xa1")] 21000 tt tt tt
                  (or_introl eq_refl) eq_refl eq_refl)).
Defined.

(** * Further properties of the request and result formatters *)

Module RequestFacts.

Import Dict DictFacts ArgsFacts.
Local Open Scope list_scope.
Local Open Scope nat_scope.

(** The formatter of the last position runs first and first checks the
    length, so a list shorter than the formatter list is refused before any
    formatter sees a value. *)
Lemma compose_at_short (fs : list formatter) :
  fs <> [] ->
  forall i0 vs,
    List.length vs < i0 + List.length fs ->
    compose_at i0 fs vs = Raise IndexError.
Proof.
  induction fs as [| f [| g rest] IH]; intros Hne i0 vs Hlen.
  - contradiction.
  - cbn [compose_at rbind]. unfold apply_formatter_at_index.
    simpl in Hlen.
    destruct (Nat.ltb_spec (List.length vs) (i0 + 1)); [reflexivity | lia].
  - change (compose_at i0 (f :: g :: rest) vs)
      with (rbind (compose_at (S i0) (g :: rest) vs)
                  (apply_formatter_at_index f i0)).
    rewrite IH; [reflexivity | discriminate |].
    simpl in *. lia.
Qed.

Lemma id_returning_formatter (method : string) (v : value) :
  In method id_returning_methods -> format_result method v = integer_to_hex v.
Proof.
  unfold id_returning_methods. simpl. intros H.
  repeat (destruct H as [H | H]; [subst; reflexivity |]). contradiction.
Qed.

Lemma id_taking_formatter (method : string) (v : value) (rest : list value) :
  In method id_taking_methods ->
  format_request method (v :: rest)
  = rbind (hex_to_integer v) (fun v' => Ok (v' :: rest)).
Proof.
  unfold id_taking_methods. simpl. intros H.
  repeat (destruct H as [H | H]; [subst; reflexivity |]). contradiction.
Qed.

Lemma to_integer_if_hex_cases (v : value) :
  to_integer_if_hex v
  = match v with
    | VStr s => if is_hex s then hex_to_integer v else Ok v
    | _ => Ok v
    end.
Proof. destruct v; reflexivity. Qed.

Lemma hex_to_integer_result (s : string) (r : value) :
  hex_to_integer (VStr s) = Ok r -> exists n, r = VInt n.
Proof.
  unfold hex_to_integer. destruct (int16 s) as [n | e]; simpl; intros H;
    inversion H. eauto.
Qed.

Lemma hex_to_integer_raise (s : string) (e : exn) :
  hex_to_integer (VStr s) = Raise e -> e = ValueError.
Proof.
  unfold hex_to_integer, int16.
  destruct (match strip (list_ascii_of_string s) with
            | [] => _ | _ :: _ => _ end); simpl; intros H; inversion H.
  reflexivity.
Qed.


End RequestFacts.

(** X1: a request whose argument list is shorter than the list of
    formatters registered for its method is refused with [IndexError]; so
    eth_call needs its block argument, eth_getCode too, and
    personal_sendTransaction its passphrase. *)
Theorem short_argument_list_rejected
    (method : string) (fs : list formatter) (params : list value) :
  Dict.get method request_formatters = Some (apply_formatters_to_args fs) ->
  (List.length params < List.length fs)%nat ->
  format_request method params = Raise IndexError.
Proof.
  intros Hget Hlen. unfold format_request. rewrite Hget.
  apply RequestFacts.compose_at_short; [| simpl; lia].
  intros ->. simpl in Hlen. lia.
Qed.

Lemma short_argument_list_rejected_witness :
  format_request "eth_call" [VDict [("to", VStr "0xd3cd")]] = Raise IndexError.
Proof.
  apply (short_argument_list_rejected "eth_call"
           [transaction_params_transformer; block_number_or_tag]
           [VDict [("to", VStr "0xd3cd")]]).
  - reflexivity.
  - simpl. lia.
Defined.

(** X2: request formatting never changes the number of arguments, leaves
    every argument beyond the registered formatters as it is, and leaves the
    whole list as it is for a method without an entry. *)
Theorem request_formatting_frame (method : string) (params : list value) :
  (Dict.get method request_formatters = None ->
   format_request method params = Ok params)
  /\ (forall fs out,
        Dict.get method request_formatters
        = Some (apply_formatters_to_args fs) ->
        format_request method params = Ok out ->
        List.length out = List.length params
        /\ forall p, (List.length fs <= p)%nat ->
             nth_error out p = nth_error params p).
Proof.
  split.
  - intros Hget. unfold format_request. now rewrite Hget.
  - intros fs out Hget Hfmt. unfold format_request in Hfmt.
    rewrite Hget in Hfmt.
    destruct (ArgsFacts.apply_formatters_to_args_ok _ _ _ Hfmt)
      as (Hlen & _ & Hframe).
    split; assumption.
Qed.

(** X3: an id that leaves through the result formatter of eth_newFilter,
    eth_newBlockFilter, eth_newPendingTransactionFilter or evm_snapshot comes
    back as the same integer through the request formatter of
    eth_getFilterChanges, eth_getFilterLogs, eth_uninstallFilter or
    evm_revert, whatever the integer and the other arguments. *)
Theorem filter_id_round_trip
    (creator consumer : string) (n : Z) (rest : list value) :
  In creator id_returning_methods ->
  In consumer id_taking_methods ->
  rbind (format_result creator (VInt n))
        (fun id => format_request consumer (id :: rest))
  = Ok (VInt n :: rest).
Proof.
  intros Hc Hu. rewrite RequestFacts.id_returning_formatter by assumption.
  cbn [integer_to_hex rbind].
  rewrite RequestFacts.id_taking_formatter by assumption.
  unfold hex_to_integer. now rewrite Quantity.int16_hex.
Qed.

Lemma filter_id_round_trip_witness :
  rbind (format_result "eth_newFilter" (VInt 7))
        (fun id => format_request "eth_uninstallFilter" (id :: []))
  = Ok [VInt 7].
Proof.
  apply (filter_id_round_trip "eth_newFilter" "eth_uninstallFilter" 7 []).
  - simpl. tauto.
  - simpl. tauto.
Defined.

(** X4: the id-taking methods convert with [hex_to_integer] without a
    test: an id that is not a string (an integer already, None) is refused
    with [TypeError], and any failure on a string is a [ValueError]. *)
Theorem id_argument_must_be_hex_string
    (method : string) (v : value) (rest : list value) :
  In method id_taking_methods ->
  ((forall s, v <> VStr s) ->
   format_request method (v :: rest) = Raise TypeError)
  /\ (forall s e, v = VStr s ->
        format_request method (v :: rest) = Raise e -> e = ValueError).
Proof.
  intros Hm. rewrite RequestFacts.id_taking_formatter by assumption. split.
  - intros Hns. destruct v; try reflexivity. now contradiction (Hns s).
  - intros s e -> H.
    destruct (hex_to_integer (VStr s)) as [r | e'] eqn:Hh; simpl in H;
      [discriminate |].
    inversion H; subst. now apply (RequestFacts.hex_to_integer_raise s).
Qed.

Lemma id_argument_must_be_hex_string_witness :
  format_request "eth_getFilterChanges" [VInt 7] = Raise TypeError.
Proof.
  apply (id_argument_must_be_hex_string "eth_getFilterChanges" (VInt 7) []).
  - simpl. tauto.
  - discriminate.
Defined.

Module HexTextFacts.

Local Open Scope list_scope.

Ltac each_char c :=
  destruct c as [[] [] [] [] [] [] [] []].

(** A hexadecimal digit is no underscore, no space and no sign, and has a
    value. *)
Lemma hexdigit_char (c : ascii) :
  is_hexdigit c = true ->
  is_underscore c = false /\ is_space c = false
  /\ c <> "-"%char /\ c <> "+"%char
  /\ c <> "x"%char /\ c <> "X"%char
  /\ exists d, hex_value c = Some d.
Proof.
  each_char c; intros H; vm_compute in H; try discriminate H;
    (repeat split; try reflexivity; try discriminate;
     eexists; vm_compute; reflexivity).
Qed.

Lemma is_hex_chars (c x : ascii) (rest : list ascii) :
  match c :: x :: rest with
  | [] => false
  | "0"%char :: x' :: rest' =>
      if Ascii.eqb x' "x"%char || Ascii.eqb x' "X"%char
      then forallb is_hexdigit rest'
      else forallb is_hexdigit (c :: x :: rest)
  | _ => forallb is_hexdigit (c :: x :: rest)
  end
  = if Ascii.eqb c "0"%char
       && (Ascii.eqb x "x"%char || Ascii.eqb x "X"%char)
    then forallb is_hexdigit rest
    else forallb is_hexdigit (c :: x :: rest).
Proof.
  each_char c; reflexivity.
Qed.

Lemma unprefixed_chars (c x : ascii) (rest : list ascii) :
  unprefixed_value (c :: x :: rest)
  = if Ascii.eqb c "0"%char
       && (Ascii.eqb x "x"%char || Ascii.eqb x "X"%char)
    then digits_value AfterPrefix 0 rest
    else digits_value AtStart 0 (c :: x :: rest).
Proof.
  unfold unprefixed_value. each_char c; reflexivity.
Qed.

Lemma unprefixed_single (c : ascii) :
  unprefixed_value [c] = digits_value AtStart 0 [c].
Proof. unfold unprefixed_value. each_char c; reflexivity. Qed.

(** Without a sign in front, [int] reads the text as it stands. *)
Lemma int16_unsigned (s : string) (c : ascii) (rest : list ascii) :
  strip (list_ascii_of_string s) = c :: rest ->
  c <> "-"%char -> c <> "+"%char ->
  int16 s = match unprefixed_value (c :: rest) with
            | Some n => Ok n
            | None => Raise ValueError
            end.
Proof.
  intros Hs Hm Hp. unfold int16. rewrite Hs.
  each_char c; try reflexivity; exfalso; (now apply Hm) || (now apply Hp).
Qed.

Lemma digits_value_all_hex (ds : list ascii) :
  forall st acc,
    ds <> [] -> forallb is_hexdigit ds = true ->
    exists n, digits_value st acc ds = Some n.
Proof.
  induction ds as [| c rest IH]; intros st acc Hne Hall; [contradiction |].
  cbn [forallb] in Hall. apply andb_true_iff in Hall.
  destruct Hall as [Hc Hrest].
  destruct (hexdigit_char c Hc) as (Hu & _ & _ & _ & _ & _ & d & Hd).
  cbn [digits_value]. rewrite Hu, Hd.
  destruct rest as [| c' rest']; [cbn; eauto |].
  apply IH; [discriminate | assumption].
Qed.

Lemma lstrip_head (c : ascii) (cs : list ascii) :
  is_space c = false -> lstrip (c :: cs) = c :: cs.
Proof. intros H. simpl. now rewrite H. Qed.

Lemma strip_no_space (cs : list ascii) :
  forallb (fun c => negb (is_space c)) cs = true -> strip cs = cs.
Proof.
  intros Hall. unfold strip.
  assert (Hl : forall l, forallb (fun c => negb (is_space c)) l = true ->
                         lstrip l = l).
  { intros [| c l] H; [reflexivity |]. simpl in H.
    apply andb_true_iff in H. destruct H as [Hc _].
    apply lstrip_head. now apply negb_true_iff. }
  rewrite (Hl cs Hall). rewrite Hl; [apply rev_involutive |].
  apply forallb_forall. intros c Hin. apply in_rev in Hin.
  revert c Hin. now apply forallb_forall.
Qed.

Lemma hex_no_space (ds : list ascii) :
  forallb is_hexdigit ds = true ->
  forallb (fun c => negb (is_space c)) ds = true.
Proof.
  intros H. apply forallb_forall. intros c Hin.
  assert (Hc : is_hexdigit c = true)
    by (revert c Hin; now apply forallb_forall).
  destruct (hexdigit_char c Hc) as (_ & Hsp & _). now rewrite Hsp.
Qed.

Lemma chars_inj (s t : string) :
  list_ascii_of_string s = list_ascii_of_string t -> s = t.
Proof.
  intros H. rewrite <- (string_of_list_ascii_of_string s),
    <- (string_of_list_ascii_of_string t). now rewrite H.
Qed.

(** Every text that [is_hex] accepts can be read by [int], the bare prefix
    apart. *)
Lemma int16_of_hex (s : string) :
  is_hex s = true -> s <> "0x" -> s <> "0X" -> exists n, int16 s = Ok n.
Proof.
  unfold is_hex. intros Hhex Hx HX.
  destruct (list_ascii_of_string s) as [| c [| x rest]] eqn:Hcs;
    [discriminate | |].
  - (* one character *)
    assert (Hc : is_hexdigit c = true).
    { destruct c as [[] [] [] [] [] [] [] []]; cbn in Hhex;
        try discriminate Hhex; vm_compute; reflexivity. }
    destruct (hexdigit_char c Hc) as (_ & Hsp & Hm & Hp & _).
    rewrite (int16_unsigned s c []); [| | assumption | assumption].
    + rewrite unprefixed_single.
      destruct (digits_value_all_hex [c] AtStart 0) as (n & ->);
        [discriminate | cbn; now rewrite Hc |]. eauto.
    + rewrite Hcs. apply strip_no_space. cbn. now rewrite Hsp.
  - rewrite is_hex_chars in Hhex.
    destruct (Ascii.eqb c "0"%char
              && (Ascii.eqb x "x"%char || Ascii.eqb x "X"%char)) eqn:Hpre.
    + (* 0x followed by digits *)
      apply andb_true_iff in Hpre. destruct Hpre as [Hc0 Hxx].
      apply Ascii.eqb_eq in Hc0. subst c.
      assert (Hrest : rest <> []).
      { intros ->. apply orb_true_iff in Hxx.
        destruct Hxx as [E | E]; apply Ascii.eqb_eq in E; subst x.
        - apply Hx. now apply chars_inj.
        - apply HX. now apply chars_inj. }
      rewrite (int16_unsigned s "0"%char (x :: rest));
        [| | discriminate | discriminate].
      * rewrite unprefixed_chars. cbn [Ascii.eqb Bool.eqb andb]. rewrite Hxx.
        destruct (digits_value_all_hex rest AfterPrefix 0 Hrest Hhex)
          as (n & ->). eauto.
      * rewrite Hcs. apply strip_no_space.
        cbn [forallb]. rewrite (hex_no_space rest Hhex), andb_true_r.
        apply orb_true_iff in Hxx.
        destruct Hxx as [E | E]; apply Ascii.eqb_eq in E; subst x; reflexivity.
    + (* digits only *)
      pose proof Hhex as Hall. cbn [forallb] in Hhex.
      apply andb_true_iff in Hhex. destruct Hhex as [Hc Hrest].
      apply andb_true_iff in Hrest. destruct Hrest as [Hxd _].
      destruct (hexdigit_char c Hc) as (_ & _ & Hm & Hp & _).
      rewrite (int16_unsigned s c (x :: rest)); [| | assumption | assumption].
      * rewrite unprefixed_chars, Hpre.
        destruct (digits_value_all_hex (c :: x :: rest) AtStart 0)
          as (n & ->); [discriminate | assumption |]. eauto.
      * rewrite Hcs. apply strip_no_space. now apply hex_no_space.
Qed.

(** [to_integer_if_hex] fails on the bare prefix and on nothing else. *)
Lemma to_integer_if_hex_raises (v : value) (e : exn) :
  to_integer_if_hex v = Raise e ->
  e = ValueError /\ (v = VStr "0x" \/ v = VStr "0X").
Proof.
  rewrite RequestFacts.to_integer_if_hex_cases.
  destruct v; try discriminate.
  destruct (is_hex s) eqn:Hhex; [| discriminate].
  intros H. split; [now apply (RequestFacts.hex_to_integer_raise s) |].
  destruct (string_dec s "0x") as [-> | Hx]; [now left |].
  destruct (string_dec s "0X") as [-> | HX]; [now right |].
  destruct (int16_of_hex s Hhex Hx HX) as (n & Hn).
  unfold hex_to_integer in H. rewrite Hn in H. discriminate.
Qed.

End HexTextFacts.

(** X5: [to_integer_if_hex] returns every value that is not a string and
    every string that [is_hex] does not accept unchanged, the empty string
    among them; it turns every other accepted string into an integer; it
    fails on the bare prefix, "0x" or "0X", with [ValueError] and on nothing
    else; and it returns its own results unchanged when applied again. *)
Theorem to_integer_if_hex_gate :
  (forall v, (forall s, v <> VStr s) -> to_integer_if_hex v = Ok v)
  /\ (forall s, is_hex s = false -> to_integer_if_hex (VStr s) = Ok (VStr s))
  /\ to_integer_if_hex (VStr "") = Ok (VStr "")
  /\ (forall s, is_hex s = true -> s <> "0x" -> s <> "0X" ->
        exists n, to_integer_if_hex (VStr s) = Ok (VInt n))
  /\ to_integer_if_hex (VStr "0x") = Raise ValueError
  /\ to_integer_if_hex (VStr "0X") = Raise ValueError
  /\ (forall v e, to_integer_if_hex v = Raise e ->
        e = ValueError /\ (v = VStr "0x" \/ v = VStr "0X"))
  /\ (forall v v', to_integer_if_hex v = Ok v' -> to_integer_if_hex v' = Ok v').
Proof.
  split; [| split; [| split; [| split; [| split; [| split; [| split]]]]]].
  - intros v Hns. rewrite RequestFacts.to_integer_if_hex_cases.
    destruct v; try reflexivity. now contradiction (Hns s).
  - intros s Hs. rewrite RequestFacts.to_integer_if_hex_cases. now rewrite Hs.
  - reflexivity.
  - intros s Hs Hx HX. rewrite RequestFacts.to_integer_if_hex_cases, Hs.
    destruct (HexTextFacts.int16_of_hex s Hs Hx HX) as (n & Hn).
    exists n. unfold hex_to_integer. now rewrite Hn.
  - reflexivity.
  - reflexivity.
  - exact HexTextFacts.to_integer_if_hex_raises.
  - intros v v'. rewrite RequestFacts.to_integer_if_hex_cases.
    destruct v; try (intros H; inversion H; subst; reflexivity).
    destruct (is_hex s) eqn:Hs.
    + intros H. apply RequestFacts.hex_to_integer_result in H.
      destruct H as (n & ->). reflexivity.
    + intros H. inversion H; subst.
      rewrite RequestFacts.to_integer_if_hex_cases. now rewrite Hs.
Qed.


Module KeyMapFacts.

Import Dict DictFacts.
Local Open Scope list_scope.

Lemma get_target (m : t string) (k target : string) :
  get k m = Some target -> In target (targets m).
Proof.
  intros H. apply get_some_in in H. unfold targets.
  change target with (snd (k, target)). now apply in_map.
Qed.

(** A table with distinct targets maps distinct names to distinct names. *)
Lemma targets_inj (m : t string) :
  NoDup (targets m) ->
  forall a b target, get a m = Some target -> get b m = Some target -> a = b.
Proof.
  induction m as [| [k0 t0] m IH]; intros Hnd a b target Ha Hb;
    [discriminate |].
  inversion Hnd as [| ? ? Hnotin Hnd']; subst. simpl in Ha, Hb.
  destruct (String.eqb_spec a k0) as [-> | Hna],
           (String.eqb_spec b k0) as [-> | Hnb].
  - reflexivity.
  - inversion Ha; subst. exfalso. apply Hnotin. now apply (get_target m b).
  - inversion Hb; subst. exfalso. apply Hnotin. now apply (get_target m a).
  - now apply (IH Hnd' a b target).
Qed.

Lemma map_key_inj (m : t string) (ks : list string) :
  NoDup (targets m) ->
  (forall target, In target (targets m) -> ~ In target ks) ->
  ForallPairs (fun a b => map_key m a = map_key m b -> a = b) ks.
Proof.
  intros Hnd Hfree a b Ha Hb. unfold map_key.
  destruct (get a m) as [ta |] eqn:Hma, (get b m) as [tb |] eqn:Hmb; intros E.
  - subst tb. now apply (targets_inj m Hnd a b ta).
  - subst b. exfalso. apply (Hfree ta); [now apply (get_target m a) | assumption].
  - subst a. exfalso. apply (Hfree tb); [now apply (get_target m b) | assumption].
  - assumption.
Qed.

(** Without a clash between the payload's names and the table's targets,
    renaming is a plain map over the items. *)
Lemma apply_key_map_plain (m : t string) (d : t value) :
  NoDup (targets m) -> wf d ->
  (forall target, In target (targets m) -> ~ In target (keys d)) ->
  apply_key_map m d = map (fun kv => (map_key m (fst kv), snd kv)) d.
Proof.
  intros Hnd Hwf Hfree. unfold apply_key_map. apply of_items_wf.
  unfold wf. rewrite TxParamsFacts.keys_rename.
  apply NoDup_map_NoDup_ForallPairs; [| assumption].
  now apply map_key_inj.
Qed.

Lemma apply_key_map_ok (m : t string) (d : t value) :
  NoDup (targets m) -> wf d ->
  (forall target, In target (targets m) -> ~ In target (keys d)) ->
  keys (apply_key_map m d) = map (map_key m) (keys d)
  /\ wf (apply_key_map m d)
  /\ (forall k v, get k d = Some v ->
        get (map_key m k) (apply_key_map m d) = Some v).
Proof.
  intros Hnd Hwf Hfree.
  rewrite apply_key_map_plain by assumption.
  assert (Hwfr : wf (map (fun kv => (map_key m (fst kv), snd kv)) d)).
  { unfold wf. rewrite TxParamsFacts.keys_rename.
    apply NoDup_map_NoDup_ForallPairs; [| assumption].
    now apply map_key_inj. }
  split; [apply TxParamsFacts.keys_rename | split; [assumption |]].
  intros k v Hget. apply in_get; [assumption |].
  change (map_key m k, v)
    with ((fun kv : string * value => (map_key m (fst kv), snd kv)) (k, v)).
  apply in_map. now apply get_some_in.
Qed.

Lemma tables_targets_distinct (m : t string) :
  In m key_mapping_tables -> NoDup (targets m).
Proof.
  unfold key_mapping_tables. simpl. intros H.
  repeat (destruct H as [H | H];
          [subst; apply distinct_NoDup; reflexivity |]).
  contradiction.
Qed.

(** Scalar formatting followed by renaming, on a record. *)
Lemma format_rename_ok (formatters : t formatter) (m : t string)
    (d items : t value) :
  NoDup (targets m) -> wf d ->
  (forall target, In target (targets m) -> ~ In target (keys d)) ->
  format_items formatters d = Ok items ->
  keys (apply_key_map m (of_items items)) = map (map_key m) (keys d)
  /\ (forall k v, get k d = Some v ->
        exists v', format_field formatters k v = Ok v'
                   /\ get (map_key m k) (apply_key_map m (of_items items))
                      = Some v').
Proof.
  intros Hnd Hwf Hfree Hitems.
  destruct (TxParamsFacts.format_items_ok _ _ _ Hitems) as (Hkeys & Hget).
  assert (Hwfi : wf items) by (unfold wf; now rewrite Hkeys).
  rewrite of_items_wf by assumption.
  destruct (apply_key_map_ok m items Hnd Hwfi) as (Hk & _ & Hg).
  { now rewrite Hkeys. }
  split; [now rewrite Hk, Hkeys |].
  intros k v Hv. destruct (Hget k v Hv) as (v' & Hf & Hv'). eauto.
Qed.

(** The first item that a formatter refuses decides the error, when no
    other field can fail. *)
Lemma format_items_raise (formatters : t formatter) (k : string) (e : exn) :
  (forall k' v', k' <> k -> exists r, format_field formatters k' v' = Ok r) ->
  forall d v,
    get k d = Some v -> format_field formatters k v = Raise e ->
    format_items formatters d = Raise e.
Proof.
  intros Hother. induction d as [| [k0 v0] d IH]; intros v Hget Hf;
    [discriminate |].
  simpl in Hget. cbn [format_items].
  destruct (String.eqb_spec k k0) as [<- | Hne].
  - inversion Hget; subst. now rewrite Hf.
  - destruct (Hother k0 v0 ltac:(congruence)) as (r & Hr). rewrite Hr.
    cbn [rbind]. now rewrite (IH v Hget Hf).
Qed.

Lemma all_dicts (items : list value) :
  forallb is_dict_value items = true <-> exists ds, items = map VDict ds.
Proof.
  split.
  - induction items as [| item items IH]; intros H; [now exists [] |].
    simpl in H. apply andb_true_iff in H. destruct H as [Hi Hrest].
    destruct (IH Hrest) as (ds & ->).
    destruct item; try discriminate. now exists (fields :: ds).
  - intros (ds & ->). induction ds as [| d ds IH]; [reflexivity | exact IH].
Qed.

Lemma format_each_dicts (f : Dict.t value -> Dict.t value) (ds : list (t value)) :
  format_each (on_dict f) (map VDict ds)
  = Ok (map (fun d => VDict (f d)) ds).
Proof.
  induction ds as [| d ds IH]; [reflexivity |].
  simpl. rewrite IH. reflexivity.
Qed.

Lemma log_array_formatter_dicts (ds : list (t value)) :
  log_array_formatter (VList (map VDict ds))
  = Ok (VList (map (fun d => VDict (log_key_remapper d)) ds)).
Proof.
  unfold log_array_formatter, apply_formatter_if, is_array_of_dicts.
  rewrite (proj2 (all_dicts (map VDict ds))) by eauto. cbn [rbind].
  unfold apply_formatter_to_array. cbn [iterate rbind].
  now rewrite format_each_dicts.
Qed.

Lemma log_array_formatter_other (v : value) :
  (forall ds, v <> VList (map VDict ds)) -> log_array_formatter v = Ok v.
Proof.
  intros Hv. unfold log_array_formatter, apply_formatter_if, is_array_of_dicts.
  destruct v; try reflexivity.
  destruct (forallb is_dict_value items) eqn:Hall; [| reflexivity].
  apply all_dicts in Hall. destruct Hall as (ds & ->).
  now contradiction (Hv ds).
Qed.

Lemma log_result_formatter (method : string) (v : value) :
  In method log_result_methods -> format_result method v = log_array_formatter v.
Proof.
  unfold log_result_methods. simpl. intros H.
  repeat (destruct H as [H | H]; [subst; reflexivity |]). contradiction.
Qed.

End KeyMapFacts.

(** X7: each rename table of the file (transaction, log, receipt and block
    results, transaction and filter parameters), applied to a record that
    holds none of the table's target names, keeps every field: the keys are
    the mapped names in the record's order, still distinct, and each value
    stands unchanged under the mapped name of its field. *)
Theorem key_remappers_keep_fields
    (key_mappings : Dict.t string) (d : Dict.t value) :
  In key_mappings key_mapping_tables ->
  Dict.wf d ->
  (forall target, In target (targets key_mappings) -> ~ In target (Dict.keys d)) ->
  Dict.keys (apply_key_map key_mappings d)
  = map (map_key key_mappings) (Dict.keys d)
  /\ Dict.wf (apply_key_map key_mappings d)
  /\ (forall k v, Dict.get k d = Some v ->
        Dict.get (map_key key_mappings k) (apply_key_map key_mappings d)
        = Some v).
Proof.
  intros Hm Hwf Hfree.
  apply KeyMapFacts.apply_key_map_ok; auto.
  now apply KeyMapFacts.tables_targets_distinct.
Qed.

Lemma key_remappers_keep_fields_witness :
  Dict.keys (block_key_remapper
               [("number", VInt 3); ("gas_limit", VInt 8000000);
                ("bloom", VInt 0)])
  = ["number"; "gasLimit"; "logsBloom"]
  /\ Dict.wf (block_key_remapper
                [("number", VInt 3); ("gas_limit", VInt 8000000);
                 ("bloom", VInt 0)])
  /\ (forall k v,
        Dict.get k [("number", VInt 3); ("gas_limit", VInt 8000000);
                    ("bloom", VInt 0)] = Some v ->
        Dict.get (map_key BLOCK_KEY_MAPPINGS k)
          (block_key_remapper
             [("number", VInt 3); ("gas_limit", VInt 8000000);
              ("bloom", VInt 0)]) = Some v).
Proof.
  apply (key_remappers_keep_fields BLOCK_KEY_MAPPINGS
           [("number", VInt 3); ("gas_limit", VInt 8000000); ("bloom", VInt 0)]).
  - simpl. tauto.
  - apply distinct_NoDup. reflexivity.
  - simpl. intros target Ht Hin.
    repeat (destruct Ht as [Ht | Ht];
            [subst; simpl in Hin; intuition discriminate |]).
    contradiction.
Defined.

(** X8: a filter given to eth_newFilter or eth_getLogs that has no
    from_block or to_block field of its own comes out with fromBlock and
    toBlock renamed to from_block and to_block, their hexadecimal values
    turned into integers, every other field under its own name and
    unchanged, and no field lost; a block tag under fromBlock or toBlock
    stays the tag. *)
Theorem filter_params_renamed_and_formatted (d : Dict.t value) (out : value) :
  Dict.wf d ->
  ~ In "from_block" (Dict.keys d) ->
  ~ In "to_block" (Dict.keys d) ->
  filter_params_transformer (VDict d) = Ok out ->
  exists d',
    out = VDict d'
    /\ Dict.keys d' = map (map_key FILTER_PARAMS_MAPPINGS) (Dict.keys d)
    /\ (forall k v, Dict.get k d = Some v ->
          exists v', format_field FILTER_PARAMS_FORMATTERS k v = Ok v'
                     /\ Dict.get (map_key FILTER_PARAMS_MAPPINGS k) d' = Some v')
    /\ (forall tag, In tag named_blocks ->
          (Dict.get "fromBlock" d = Some (VStr tag) ->
           Dict.get "from_block" d' = Some (VStr tag))
          /\ (Dict.get "toBlock" d = Some (VStr tag) ->
              Dict.get "to_block" d' = Some (VStr tag))).
Proof.
  intros Hwf Hfrom Hto H. unfold filter_params_transformer in H.
  apply ArgsFacts.rbind_ok in H. destruct H as (d1 & Hfmt & E).
  inversion E; subst out. clear E.
  unfold filter_params_formatter, apply_formatters_to_dict in Hfmt.
  apply ArgsFacts.rbind_ok in Hfmt. destruct Hfmt as (items & Hitems & E).
  inversion E; subst d1. clear E.
  destruct (KeyMapFacts.format_rename_ok FILTER_PARAMS_FORMATTERS
              FILTER_PARAMS_MAPPINGS d items) as (Hkeys & Hget); auto.
  { apply distinct_NoDup. reflexivity. }
  { simpl. intros target [<- | [<- | []]]; assumption. }
  eexists. split; [reflexivity |]. split; [exact Hkeys |].
  split; [exact Hget |].
  intros tag Htag.
  assert (Htagfmt : to_integer_if_hex (VStr tag) = Ok (VStr tag)).
  { unfold named_blocks in Htag. simpl in Htag.
    destruct Htag as [<- | [<- | [<- | []]]]; reflexivity. }
  split; intros Hv; destruct (Hget _ _ Hv) as (v' & Hf & Hv');
    cbv [format_field FILTER_PARAMS_FORMATTERS Dict.get String.eqb Ascii.eqb
         Bool.eqb] in Hf;
    rewrite Htagfmt in Hf; inversion Hf; subst; exact Hv'.
Qed.

Lemma filter_params_renamed_and_formatted_witness :
  exists d',
    VDict [("from_block", VInt 16); ("to_block", VStr "latest");
           ("address", VStr "0xd3cd")] = VDict d'
    /\ Dict.keys d'
       = map (map_key FILTER_PARAMS_MAPPINGS)
           (Dict.keys [("fromBlock", VStr "0x10"); ("toBlock", VStr "latest");
                       ("address", VStr "0xd3cd")])
    /\ (forall k v,
          Dict.get k [("fromBlock", VStr "0x10"); ("toBlock", VStr "latest");
                      ("address", VStr "0xd3cd")] = Some v ->
          exists v', format_field FILTER_PARAMS_FORMATTERS k v = Ok v'
                     /\ Dict.get (map_key FILTER_PARAMS_MAPPINGS k) d' = Some v')
    /\ (forall tag, In tag named_blocks ->
          (Dict.get "fromBlock"
             [("fromBlock", VStr "0x10"); ("toBlock", VStr "latest");
              ("address", VStr "0xd3cd")] = Some (VStr tag) ->
           Dict.get "from_block" d' = Some (VStr tag))
          /\ (Dict.get "toBlock"
                [("fromBlock", VStr "0x10"); ("toBlock", VStr "latest");
                 ("address", VStr "0xd3cd")] = Some (VStr tag) ->
              Dict.get "to_block" d' = Some (VStr tag))).
Proof.
  apply (filter_params_renamed_and_formatted
           [("fromBlock", VStr "0x10"); ("toBlock", VStr "latest");
            ("address", VStr "0xd3cd")]
           (VDict [("from_block", VInt 16); ("to_block", VStr "latest");
                   ("address", VStr "0xd3cd")])).
  - apply distinct_NoDup. reflexivity.
  - simpl. intuition discriminate.
  - simpl. intuition discriminate.
  - reflexivity.
Defined.

(** X9: the result formatters of the block, transaction and receipt
    lookups act on records only: any other result, such as None for an
    unknown hash, is returned unchanged. *)
Theorem record_results_only (method : string) (v : value) :
  In method record_result_methods ->
  (forall d, v <> VDict d) ->
  format_result method v = Ok v.
Proof.
  unfold record_result_methods. simpl. intros Hm Hv.
  assert (Hgate : forall f, apply_formatter_if is_dict f v = Ok v).
  { intros f. unfold apply_formatter_if, is_dict.
    destruct v; try reflexivity. now contradiction (Hv fields). }
  repeat (destruct Hm as [Hm | Hm]; [subst; apply Hgate |]).
  contradiction.
Qed.

Lemma record_results_only_witness :
  format_result "eth_getTransactionReceipt" VNone = Ok VNone.
Proof.
  apply (record_results_only "eth_getTransactionReceipt" VNone).
  - simpl. tauto.
  - discriminate.
Defined.

(** X10: the result formatter of eth_getLogs, eth_getFilterChanges and
    eth_getFilterLogs renames the keys of every record of a list of records,
    keeping their number and order; any other result (None, a list of block
    hashes, a list with one element that is not a record) is returned
    unchanged. *)
Theorem log_results_elementwise (method : string) :
  In method log_result_methods ->
  (forall logs : list (Dict.t value),
     format_result method (VList (map VDict logs))
     = Ok (VList (map (fun entry => VDict (log_key_remapper entry)) logs)))
  /\ (forall v, (forall logs, v <> VList (map VDict logs)) ->
        format_result method v = Ok v).
Proof.
  intros Hm. split.
  - intros logs. rewrite KeyMapFacts.log_result_formatter by assumption.
    apply KeyMapFacts.log_array_formatter_dicts.
  - intros v Hv. rewrite KeyMapFacts.log_result_formatter by assumption.
    now apply KeyMapFacts.log_array_formatter_other.
Qed.

Lemma log_results_elementwise_witness :
  format_result "eth_getFilterChanges"
    (VList (map VDict [[("log_index", VInt 0); ("data", VStr "0x")];
                       [("log_index", VInt 1); ("data", VStr "0x01")]]))
  = Ok (VList [VDict [("logIndex", VInt 0); ("data", VStr "0x")];
               VDict [("logIndex", VInt 1); ("data", VStr "0x01")]]).
Proof.
  destruct (log_results_elementwise "eth_getFilterChanges") as (Hlogs & _).
  - simpl. tauto.
  - exact (Hlogs [[("log_index", VInt 0); ("data", VStr "0x")];
                  [("log_index", VInt 1); ("data", VStr "0x01")]]).
Defined.

Module ResultFacts.

Import Dict DictFacts.
Local Open Scope list_scope.

Lemma transaction_field_to_empty :
  format_field TRANSACTION_FORMATTERS "to" (VStr "") = Ok VNone.
Proof. reflexivity. Qed.

Lemma transaction_field_other (k : string) (v : value) :
  k <> "to" \/ v <> VStr "" ->
  format_field TRANSACTION_FORMATTERS k v = Ok v.
Proof.
  intros H. unfold format_field, TRANSACTION_FORMATTERS. cbn [get].
  destruct (String.eqb_spec k "to") as [-> | Hne]; [| reflexivity].
  destruct H as [H | H]; [congruence |].
  unfold apply_formatter_if, eq_empty_string.
  destruct v; try reflexivity. destruct s; [congruence | reflexivity].
Qed.

Lemma transaction_field_total (k : string) (v : value) :
  exists v', format_field TRANSACTION_FORMATTERS k v = Ok v'.
Proof.
  destruct (String.eqb_spec k "to") as [-> | Hne].
  - destruct v; try (eexists; reflexivity).
    destruct s; eexists; reflexivity.
  - exists v. apply transaction_field_other. now left.
Qed.

Lemma receipt_field_other (k : string) (v : value) :
  k <> "logs" -> format_field RECEIPT_FORMATTERS k v = Ok v.
Proof.
  intros Hne. unfold format_field, RECEIPT_FORMATTERS. cbn [get].
  now destruct (String.eqb_spec k "logs").
Qed.

Lemma receipt_field_logs (logs : list (t value)) :
  format_field RECEIPT_FORMATTERS "logs" (VList (map VDict logs))
  = Ok (VList (map (fun entry => VDict (log_key_remapper entry)) logs)).
Proof.
  unfold format_field, RECEIPT_FORMATTERS. cbn [get String.eqb Ascii.eqb Bool.eqb].
  unfold apply_formatter_to_array. cbn [iterate rbind].
  now rewrite KeyMapFacts.format_each_dicts.
Qed.

Lemma keys_not_target (m : t string) (d : t value) (k : string) :
  (forall target, In target (targets m) -> ~ In target (keys d)) ->
  In k (keys d) -> ~ In k (targets m).
Proof. intros Hfree Hin Ht. now apply (Hfree k). Qed.

End ResultFacts.

(** X11: the result formatter of eth_getTransactionByHash, on a
    transaction record that holds none of the wire names blockHash,
    blockNumber, gasPrice, transactionHash, transactionIndex, always returns
    a record: an empty string under 'to' becomes None, every other value is
    kept, and each field stands under its mapped name. *)
Theorem transaction_result_formatted (d : Dict.t value) :
  Dict.wf d ->
  (forall target, In target (targets TRANSACTION_KEY_MAPPINGS) ->
     ~ In target (Dict.keys d)) ->
  exists d',
    format_result "eth_getTransactionByHash" (VDict d) = Ok (VDict d')
    /\ Dict.keys d' = map (map_key TRANSACTION_KEY_MAPPINGS) (Dict.keys d)
    /\ (Dict.get "to" d = Some (VStr "") -> Dict.get "to" d' = Some VNone)
    /\ (forall k v, Dict.get k d = Some v ->
          k <> "to" \/ v <> VStr "" ->
          Dict.get (map_key TRANSACTION_KEY_MAPPINGS k) d' = Some v).
Proof.
  intros Hwf Hfree.
  destruct (TxParamsFacts.format_items_total TRANSACTION_FORMATTERS d)
    as (items & Hitems).
  { intros k v _. apply ResultFacts.transaction_field_total. }
  destruct (KeyMapFacts.format_rename_ok TRANSACTION_FORMATTERS
              TRANSACTION_KEY_MAPPINGS d items) as (Hkeys & Hget); auto.
  { apply distinct_NoDup. reflexivity. }
  exists (transaction_key_remapper (Dict.of_items items)).
  split; [| split; [exact Hkeys | split]].
  - change (format_result "eth_getTransactionByHash" (VDict d))
      with (rbind (rbind (format_items TRANSACTION_FORMATTERS d)
                         (fun its => Ok (Dict.of_items its)))
                  (fun d1 => Ok (VDict (transaction_key_remapper d1)))).
    now rewrite Hitems.
  - intros Hto. destruct (Hget _ _ Hto) as (v' & Hf & Hv').
    rewrite ResultFacts.transaction_field_to_empty in Hf.
    inversion Hf; subst. exact Hv'.
  - intros k v Hv Hcase. destruct (Hget _ _ Hv) as (v' & Hf & Hv').
    rewrite ResultFacts.transaction_field_other in Hf by assumption.
    inversion Hf; subst. exact Hv'.
Qed.

Lemma transaction_result_formatted_witness :
  exists d',
    format_result "eth_getTransactionByHash"
      (VDict [("hash", VStr "0xab"); ("to", VStr ""); ("gas_price", VInt 1)])
    = Ok (VDict d')
    /\ Dict.keys d'
       = map (map_key TRANSACTION_KEY_MAPPINGS)
           (Dict.keys [("hash", VStr "0xab"); ("to", VStr "");
                       ("gas_price", VInt 1)])
    /\ (Dict.get "to" [("hash", VStr "0xab"); ("to", VStr "");
                       ("gas_price", VInt 1)] = Some (VStr "") ->
        Dict.get "to" d' = Some VNone)
    /\ (forall k v,
          Dict.get k [("hash", VStr "0xab"); ("to", VStr "");
                      ("gas_price", VInt 1)] = Some v ->
          k <> "to" \/ v <> VStr "" ->
          Dict.get (map_key TRANSACTION_KEY_MAPPINGS k) d' = Some v).
Proof.
  apply (transaction_result_formatted
           [("hash", VStr "0xab"); ("to", VStr ""); ("gas_price", VInt 1)]).
  - apply distinct_NoDup. reflexivity.
  - simpl. intros target Ht Hin.
    repeat (destruct Ht as [Ht | Ht];
            [subst; simpl in Hin; intuition discriminate |]).
    contradiction.
Defined.

(** X12: the result formatter of eth_getTransactionReceipt, on a receipt
    record that holds none of the wire names and whose 'logs' field is a
    list of records, returns a record in which 'logs' is the list of the
    logs with their keys renamed, in the same number and order, and every
    other field stands unchanged under its mapped name. *)
Theorem receipt_result_formatted
    (d : Dict.t value) (logs : list (Dict.t value)) :
  Dict.wf d ->
  (forall target, In target (targets RECEIPT_KEY_MAPPINGS) ->
     ~ In target (Dict.keys d)) ->
  Dict.get "logs" d = Some (VList (map VDict logs)) ->
  exists d',
    format_result "eth_getTransactionReceipt" (VDict d) = Ok (VDict d')
    /\ Dict.keys d' = map (map_key RECEIPT_KEY_MAPPINGS) (Dict.keys d)
    /\ Dict.get "logs" d'
       = Some (VList (map (fun entry => VDict (log_key_remapper entry)) logs))
    /\ (forall k v, k <> "logs" -> Dict.get k d = Some v ->
          Dict.get (map_key RECEIPT_KEY_MAPPINGS k) d' = Some v).
Proof.
  intros Hwf Hfree Hlogs.
  destruct (TxParamsFacts.format_items_total RECEIPT_FORMATTERS d)
    as (items & Hitems).
  { intros k v Hin. destruct (String.eqb_spec k "logs") as [-> | Hne].
    - apply (DictFacts.in_get _ _ _ Hwf) in Hin. rewrite Hlogs in Hin.
      inversion Hin; subst. eexists. apply ResultFacts.receipt_field_logs.
    - exists v. now apply ResultFacts.receipt_field_other. }
  destruct (KeyMapFacts.format_rename_ok RECEIPT_FORMATTERS
              RECEIPT_KEY_MAPPINGS d items) as (Hkeys & Hget); auto.
  { apply distinct_NoDup. reflexivity. }
  exists (receipt_key_remapper (Dict.of_items items)).
  split; [| split; [exact Hkeys | split]].
  - change (format_result "eth_getTransactionReceipt" (VDict d))
      with (rbind (rbind (format_items RECEIPT_FORMATTERS d)
                         (fun its => Ok (Dict.of_items its)))
                  (fun d1 => Ok (VDict (receipt_key_remapper d1)))).
    now rewrite Hitems.
  - destruct (Hget _ _ Hlogs) as (v' & Hf & Hv').
    rewrite ResultFacts.receipt_field_logs in Hf. inversion Hf; subst.
    exact Hv'.
  - intros k v Hne Hv. destruct (Hget _ _ Hv) as (v' & Hf & Hv').
    rewrite ResultFacts.receipt_field_other in Hf by assumption.
    inversion Hf; subst. exact Hv'.
Qed.

Lemma receipt_result_formatted_witness :
  exists d',
    format_result "eth_getTransactionReceipt"
      (VDict [("gas_used", VInt 21000);
              ("logs", VList (map VDict [[("log_index", VInt 0)]]))])
    = Ok (VDict d')
    /\ Dict.keys d'
       = map (map_key RECEIPT_KEY_MAPPINGS)
           (Dict.keys [("gas_used", VInt 21000);
                       ("logs", VList (map VDict [[("log_index", VInt 0)]]))])
    /\ Dict.get "logs" d'
       = Some (VList (map (fun entry => VDict (log_key_remapper entry))
                          [[("log_index", VInt 0)]]))
    /\ (forall k v, k <> "logs" ->
          Dict.get k [("gas_used", VInt 21000);
                      ("logs", VList (map VDict [[("log_index", VInt 0)]]))]
          = Some v ->
          Dict.get (map_key RECEIPT_KEY_MAPPINGS k) d' = Some v).
Proof.
  apply (receipt_result_formatted
           [("gas_used", VInt 21000);
            ("logs", VList (map VDict [[("log_index", VInt 0)]]))]
           [[("log_index", VInt 0)]]).
  - apply distinct_NoDup. reflexivity.
  - simpl. intros target Ht Hin.
    repeat (destruct Ht as [Ht | Ht];
            [subst; simpl in Hin; intuition discriminate |]).
    contradiction.
  - reflexivity.
Defined.

(** X13: a receipt whose 'logs' field is None, a boolean or an integer
    cannot be formatted: the logs formatter iterates the field without a
    test, and the result formatter of eth_getTransactionReceipt raises
    [TypeError]. *)
Theorem receipt_logs_must_be_iterable (d : Dict.t value) (v : value) :
  Dict.get "logs" d = Some v ->
  v = VNone \/ (exists b, v = VBool b) \/ (exists n, v = VInt n) ->
  format_result "eth_getTransactionReceipt" (VDict d) = Raise TypeError.
Proof.
  intros Hlogs Hv.
  change (format_result "eth_getTransactionReceipt" (VDict d))
    with (rbind (rbind (format_items RECEIPT_FORMATTERS d)
                       (fun its => Ok (Dict.of_items its)))
                (fun d1 => Ok (VDict (receipt_key_remapper d1)))).
  rewrite (KeyMapFacts.format_items_raise RECEIPT_FORMATTERS "logs" TypeError)
    with (v := v); [reflexivity | | assumption |].
  - intros k' v' Hne. exists v'. now apply ResultFacts.receipt_field_other.
  - destruct Hv as [-> | [(b & ->) | (n & ->)]]; reflexivity.
Qed.

Lemma receipt_logs_must_be_iterable_witness :
  format_result "eth_getTransactionReceipt"
    (VDict [("gas_used", VInt 21000); ("logs", VNone)])
  = Raise TypeError.
Proof.
  apply (receipt_logs_must_be_iterable
           [("gas_used", VInt 21000); ("logs", VNone)] VNone).
  - reflexivity.
  - now left.
Defined.

(** * Further properties of the default transaction fields *)

(** X14: a successful [fill_default] returns a transaction that has the
    field, changes no other field, keeps the key order when the field was
    there (with None) and appends the field when it was absent, and keeps the
    keys distinct. *)
Theorem fill_default_result {World : Type}
    (field : string) (guess_func : Web3 World -> Dict.t value -> M World value)
    (web3 : Web3 World) (transaction filled : Dict.t value) (w w' : World) :
  fill_default field guess_func web3 transaction w = (Ok filled, w') ->
  (exists v, Dict.get field filled = Some v)
  /\ (forall other, other <> field ->
        Dict.get other filled = Dict.get other transaction)
  /\ (In field (Dict.keys transaction) ->
      Dict.keys filled = Dict.keys transaction)
  /\ (~ In field (Dict.keys transaction) ->
      Dict.keys filled = (Dict.keys transaction ++ [field])%list)
  /\ (Dict.wf transaction -> Dict.wf filled).
Proof.
  intros H. split; [| split].
  - unfold fill_default in H.
    destruct (present_not_none field transaction) eqn:Hp.
    + inversion H; subst.
      apply InjectorFacts.present_not_none_true in Hp.
      destruct Hp as (v & Hv & _). eauto.
    + unfold bind, ret in H.
      destruct (guess_func web3 transaction w) as [[gv | e] w1];
        inversion H; subst.
      exists gv. apply DictFacts.get_set_eq.
  - intros other Hne.
    now apply (InjectorFacts.fill_default_other web3 _ _ _ _ _ _ other H).
  - unfold fill_default in H.
    destruct (present_not_none field transaction) eqn:Hp.
    + inversion H; subst. repeat split; auto.
      intros Hnot. apply InjectorFacts.present_not_none_true in Hp.
      destruct Hp as (v & Hv & _). apply DictFacts.get_none_iff in Hnot.
      congruence.
    + unfold bind, ret in H.
      destruct (guess_func web3 transaction w) as [[gv | e] w1];
        inversion H; subst.
      repeat split.
      * apply DictFacts.keys_set_present.
      * intros Hnot. rewrite DictFacts.set_fresh by assumption.
        unfold Dict.keys. now rewrite map_app.
      * apply DictFacts.wf_set.
Qed.

Lemma fill_default_result_witness :
  (exists v,
     Dict.get "from" [("to", VStr "0xd3cd"); ("from", VStr "0xa1")] = Some v)
  /\ (forall other, other <> "from" ->
        Dict.get other [("to", VStr "0xd3cd"); ("from", VStr "0xa1")]
        = Dict.get other [("to", VStr "0xd3cd")])
  /\ (In "from" (Dict.keys [("to", VStr "0xd3cd")]) ->
      Dict.keys [("to", VStr "0xd3cd"); ("from", VStr "0xa1")]
      = Dict.keys [("to", VStr "0xd3cd")])
  /\ (~ In "from" (Dict.keys [("to", VStr "0xd3cd")]) ->
      Dict.keys [("to", VStr "0xd3cd"); ("from", VStr "0xa1")]
      = (Dict.keys [("to", VStr "0xd3cd")] ++ ["from"])%list)
  /\ (Dict.wf [("to", VStr "0xd3cd")] ->
      Dict.wf [("to", VStr "0xd3cd"); ("from", VStr "0xa1")]).
Proof.
  apply (fill_default_result "from" guess_from web3_accounts_only
           [("to", VStr "0xd3cd")] [("to", VStr "0xd3cd"); ("from", VStr "0xa1")]
           tt tt).
  reflexivity.
Defined.

(** X15: in [guess_from] the default account is asked first and alone
    decides when it is not None: the account list is then not consulted.  An
    error of the default-account lookup is never caught, [KeyError]
    included; an error of the account lookup is swallowed only when it is a
    [KeyError], and then the guess is None. *)
Theorem guess_from_precedence {World : Type}
    (web3 : Web3 World) (transaction : Dict.t value) (w : World) :
  (forall c w1,
     coinbase web3 w = (Ok c, w1) -> c <> VNone ->
     forall other_accounts,
       guess_from {| coinbase := coinbase web3;
                     accounts := other_accounts;
                     estimateGas := estimateGas web3 |} transaction w
       = (Ok c, w1))
  /\ (forall e w1,
        coinbase web3 w = (Raise e, w1) ->
        guess_from web3 transaction w = (Raise e, w1))
  /\ (forall e w1 w2,
        coinbase web3 w = (Ok VNone, w1) ->
        accounts web3 w1 = (Raise e, w2) ->
        guess_from web3 transaction w
        = if exn_eqb KeyError e then (Ok VNone, w2) else (Raise e, w2)).
Proof.
  repeat split.
  - intros c w1 Hc Hne other_accounts. unfold guess_from, bind. cbn [coinbase].
    rewrite Hc. destruct c; try reflexivity. congruence.
  - intros e w1 Hc. unfold guess_from, bind. now rewrite Hc.
  - intros e w1 w2 Hc Ha. unfold guess_from, bind at 1. rewrite Hc.
    cbn [is_none negb]. unfold try_except, bind. rewrite Ha.
    reflexivity.
Qed.

(** X16: a transaction that already names its sender (and, for eth_call,
    its gas) is forwarded as it came, with the same other arguments and
    without any call to the backend: the world is as it was when
    [make_request] runs. *)
Theorem specified_transaction_forwarded {World : Type}
    (make_request : make_request_t World) (web3 : Web3 World)
    (method : string) (transaction : Dict.t value) (rest : list value)
    (w : World) :
  In method default_from_methods ->
  (exists sender, Dict.get "from" transaction = Some sender /\ sender <> VNone) ->
  (method = "eth_call" ->
   exists gas, Dict.get "gas" transaction = Some gas /\ gas <> VNone) ->
  default_transaction_fields_middleware make_request web3 method
    (VDict transaction :: rest) w
  = make_request method (VDict transaction :: rest) w.
Proof.
  intros Hm Hfrom Hgas.
  apply InjectorFacts.present_not_none_true in Hfrom.
  unfold default_from_methods in Hm. simpl in Hm.
  destruct Hm as [<- | [<- | [<- | []]]].
  - specialize (Hgas eq_refl).
    apply InjectorFacts.present_not_none_true in Hgas.
    rewrite InjectorFacts.middleware_eth_call.
    rewrite (InjectorFacts.bind_ok _ _ _ _ _
               (InjectorFacts.fill_default_present web3 _ _ _ w Hfrom)).
    now rewrite (InjectorFacts.bind_ok _ _ _ _ _
                   (InjectorFacts.fill_default_present web3 _ _ _ w Hgas)).
  - rewrite InjectorFacts.middleware_from_only by auto.
    now rewrite (InjectorFacts.bind_ok _ _ _ _ _
                   (InjectorFacts.fill_default_present web3 _ _ _ w Hfrom)).
  - rewrite InjectorFacts.middleware_from_only by auto.
    now rewrite (InjectorFacts.bind_ok _ _ _ _ _
                   (InjectorFacts.fill_default_present web3 _ _ _ w Hfrom)).
Qed.

Lemma specified_transaction_forwarded_witness :
  default_transaction_fields_middleware echo web3_no_accounts "eth_call"
    [VDict [("from", VStr "0x7e5f"); ("gas", VInt 90000)]; VStr "latest"] tt
  = echo "eth_call"
      [VDict [("from", VStr "0x7e5f"); ("gas", VInt 90000)]; VStr "latest"] tt.
Proof.
  apply (specified_transaction_forwarded echo web3_no_accounts "eth_call"
           [("from", VStr "0x7e5f"); ("gas", VInt 90000)] [VStr "latest"] tt).
  - simpl. tauto.
  - exists (VStr "0x7e5f"). split; [reflexivity | discriminate].
  - intros _. exists (VInt 90000). split; [reflexivity | discriminate].
Defined.

(** X17: eth_call, eth_estimateGas and eth_sendTransaction with an empty
    parameter list raise [IndexError] in the middleware itself ([params[0]]):
    nothing is asked of the backend and nothing is forwarded. *)
Theorem empty_params_rejected {World : Type}
    (make_request : make_request_t World) (web3 : Web3 World)
    (method : string) (w : World) :
  In method default_from_methods ->
  default_transaction_fields_middleware make_request web3 method [] w
  = (Raise IndexError, w).
Proof.
  unfold default_from_methods. simpl.
  intros [<- | [<- | [<- | []]]]; reflexivity.
Qed.

Lemma empty_params_rejected_witness :
  default_transaction_fields_middleware echo web3_with_coinbase
    "eth_estimateGas" [] tt
  = (Raise IndexError, tt).
Proof.
  apply (empty_params_rejected echo web3_with_coinbase "eth_estimateGas" tt).
  simpl. tauto.
Defined.

(** X18: a failure of a secondary call is the failure of the call: when
    the sender guess raises for a transaction without sender, or when gas
    estimation raises for an eth_call without gas, the middleware raises the
    same error at the world the secondary call left, whatever [make_request]
    is, so the original call is not forwarded. *)
Theorem secondary_failure_propagates {World : Type}
    (make_request : make_request_t World) (web3 : Web3 World)
    (transaction : Dict.t value) (rest : list value) (w : World) :
  (forall method e w1,
     In method default_from_methods ->
     Dict.get "from" transaction = None
     \/ Dict.get "from" transaction = Some VNone ->
     guess_from web3 transaction w = (Raise e, w1) ->
     default_transaction_fields_middleware make_request web3 method
       (VDict transaction :: rest) w
     = (Raise e, w1))
  /\ (forall with_from e w1 w2,
        fill_default "from" guess_from web3 transaction w = (Ok with_from, w1) ->
        Dict.get "gas" transaction = None
        \/ Dict.get "gas" transaction = Some VNone ->
        estimateGas web3 with_from w1 = (Raise e, w2) ->
        default_transaction_fields_middleware make_request web3 "eth_call"
          (VDict transaction :: rest) w
        = (Raise e, w2)).
Proof.
  split.
  - intros method e w1 Hm Hfrom Hguess.
    apply InjectorFacts.present_not_none_false in Hfrom.
    assert (Hfill : fill_default "from" guess_from web3 transaction w
                    = (Raise e, w1)).
    { rewrite InjectorFacts.fill_default_missing by assumption.
      now apply InjectorFacts.bind_raise. }
    unfold default_from_methods in Hm. simpl in Hm.
    destruct Hm as [<- | [<- | [<- | []]]].
    + rewrite InjectorFacts.middleware_eth_call.
      now apply InjectorFacts.bind_raise.
    + rewrite InjectorFacts.middleware_from_only by auto.
      now apply InjectorFacts.bind_raise.
    + rewrite InjectorFacts.middleware_from_only by auto.
      now apply InjectorFacts.bind_raise.
  - intros with_from e w1 w2 Hfill Hgas Hest.
    rewrite InjectorFacts.middleware_eth_call.
    rewrite (InjectorFacts.bind_ok _ _ _ _ _ Hfill).
    apply InjectorFacts.bind_raise.
    assert (Hmissing : present_not_none "gas" with_from = false).
    { apply InjectorFacts.present_not_none_false.
      now rewrite (InjectorFacts.fill_default_other web3 _ _ _ _ _ _ "gas" Hfill)
        by discriminate. }
    rewrite InjectorFacts.fill_default_missing by assumption.
    unfold guess_gas, bind. now rewrite Hest.
Qed.

Lemma secondary_failure_propagates_witness :
  default_transaction_fields_middleware echo
    {| coinbase := ret (VStr "0xc0");
       accounts := ret [];
       estimateGas := fun _ => raise ValueError |}
    "eth_call" [VDict [("to", VStr "0xd3cd")]; VStr "latest"] tt
  = (Raise ValueError, tt).
Proof.
  destruct (secondary_failure_propagates echo
              {| coinbase := ret (VStr "0xc0");
                 accounts := ret [];
                 estimateGas := fun _ => raise ValueError |}
              [("to", VStr "0xd3cd")] [VStr "latest"] tt) as (_ & Hgas).
  apply (Hgas [("to", VStr "0xd3cd"); ("from", VStr "0xc0")] ValueError tt tt).
  - reflexivity.
  - left. reflexivity.
  - reflexivity.
Defined.

(** * Further properties of the schema-driven formatters *)

Module SchemaFacts.

Import Dict DictFacts ArgsFacts.
Local Open Scope list_scope.


Lemma filter_none {A} (f : A -> bool) (l : list A) :
  (forall x, In x l -> f x = false) -> filter f l = [].
Proof.
  induction l as [| x l IH]; intros H; [reflexivity |].
  simpl. rewrite (H x) by now left. apply IH. intros y Hy. apply H. now right.
Qed.

Lemma to_integer_if_hex_raise (v : value) (e : exn) :
  to_integer_if_hex v = Raise e -> e = ValueError.
Proof.
  rewrite RequestFacts.to_integer_if_hex_cases.
  destruct v; try discriminate.
  destruct (is_hex s); [apply RequestFacts.hex_to_integer_raise | discriminate].
Qed.

Lemma to_integer_if_hex_quantity (n : Z) :
  (0 <= n)%Z -> to_integer_if_hex (VStr (hex n)) = Ok (VInt n).
Proof.
  intros Hn. rewrite RequestFacts.to_integer_if_hex_cases.
  rewrite Quantity.is_hex_hex by assumption.
  unfold hex_to_integer. now rewrite Quantity.int16_hex.
Qed.

Lemma params_field (k : string) (v : value) :
  format_field TRANSACTION_PARAMS_FORMATTERS k v
  = if existsb (String.eqb k) quantity_fields
    then to_integer_if_hex v else Ok v.
Proof.
  unfold format_field, TRANSACTION_PARAMS_FORMATTERS, quantity_fields.
  cbn [get existsb].
  destruct (String.eqb k "gas"), (String.eqb k "gasPrice"),
    (String.eqb k "value"), (String.eqb k "nonce"); reflexivity.
Qed.

Lemma params_field_raise (k : string) (v : value) (e : exn) :
  format_field TRANSACTION_PARAMS_FORMATTERS k v = Raise e -> e = ValueError.
Proof.
  rewrite params_field. destruct (existsb (String.eqb k) quantity_fields);
    [apply to_integer_if_hex_raise | discriminate].
Qed.

Lemma format_items_raise_in (formatters : t formatter) :
  forall d k v e,
    In (k, v) d -> format_field formatters k v = Raise e ->
    exists e', format_items formatters d = Raise e'.
Proof.
  induction d as [| [k0 v0] d IH]; intros k v e Hin Hf; [contradiction |].
  cbn [format_items]. destruct Hin as [E | Hin].
  - inversion E; subst. rewrite Hf. eexists. reflexivity.
  - destruct (format_field formatters k0 v0); cbn [rbind];
      [| eexists; reflexivity].
    destruct (IH _ _ _ Hin Hf) as (e' & ->). eexists. reflexivity.
Qed.

Lemma format_items_raise_kind (formatters : t formatter) (kind : exn) :
  (forall k v e, format_field formatters k v = Raise e -> e = kind) ->
  forall d e, format_items formatters d = Raise e -> e = kind.
Proof.
  intros Hall. induction d as [| [k0 v0] d IH]; intros e H; [discriminate |].
  cbn [format_items] in H.
  destruct (format_field formatters k0 v0) eqn:Hf; cbn [rbind] in H.
  - destruct (format_items formatters d) eqn:Hrest; cbn [rbind] in H;
      [discriminate |]. inversion H; subst. now apply IH.
  - inversion H; subst. now apply (Hall k0 v0).
Qed.

Lemma single_transformer_methods (method : string) (v : value)
    (rest : list value) :
  method = "eth_sendTransaction" \/ method = "eth_estimateGas" ->
  format_request method (v :: rest)
  = rbind (transaction_params_transformer v) (fun v' => Ok (v' :: rest)).
Proof. intros [-> | ->]; reflexivity. Qed.





End SchemaFacts.

(** X19: for a schema table with distinct method names whose entries are
    all lists or dicts, the factory returns one formatter per method: the
    built dict has the table's method names, in the table's order, each
    once.  The shipped table [RPC_ABIS] is such a table. *)
Theorem one_formatter_per_method
    (set_order : list string -> list string) (normalizers : list normalizer)
    (abis : Dict.t abi_types) :
  Dict.wf abis ->
  (forall m abi, In (m, abi) abis -> is_list_or_dict abi) ->
  exists fs,
    abi_request_formatters set_order normalizers abis = Ok fs
    /\ Dict.keys fs = Dict.keys abis
    /\ Dict.wf fs.
Proof.
  intros Hwf Hall.
  destruct (RpcAbiFacts.items_total set_order normalizers abis Hall)
    as (items & Hitems).
  destruct (RpcAbiFacts.items_ok _ _ _ _ Hitems) as (Hkeys & _).
  assert (Hwfi : Dict.wf items) by (unfold Dict.wf; now rewrite Hkeys).
  exists items. unfold abi_request_formatters. rewrite Hitems. cbn [rbind].
  rewrite DictFacts.of_items_wf by assumption. auto.
Qed.

Lemma one_formatter_per_method_witness :
  exists fs,
    abi_request_formatters (fun l => l) [sample_normalizer] RPC_ABIS = Ok fs
    /\ Dict.keys fs = Dict.keys RPC_ABIS
    /\ Dict.wf fs.
Proof.
  apply (one_formatter_per_method (fun l => l) [sample_normalizer] RPC_ABIS).
  - exact RPC_ABIS_wf.
  - intros m abi Hin. unfold RPC_ABIS in Hin. simpl in Hin.
    repeat (destruct Hin as [Hin | Hin]; [inversion Hin; subst; exact I |]).
    contradiction.
Defined.

(** X20: the formatter built for a method with a keyed schema raises
    [IndexError] on an empty argument list and [AttributeError] when the
    first argument is not a record ([data.keys()]). *)
Theorem keyed_formatter_edges
    (set_order : list string -> list string) (normalizers : list normalizer)
    (abis : Dict.t abi_types) (fs : Dict.t args_formatter)
    (method : string) (abi_dict : Dict.t Kind) :
  Dict.wf abis ->
  abi_request_formatters set_order normalizers abis = Ok fs ->
  Dict.get method abis = Some (AbiDict abi_dict) ->
  exists f,
    Dict.get method fs = Some f
    /\ f [] = Raise IndexError
    /\ (forall v rest, (forall d, v <> VDict d) ->
          f (v :: rest) = Raise AttributeError).
Proof.
  intros Hwf Hbuild Hget.
  destruct (RpcAbiFacts.built_for_method _ _ _ _ _ _ Hwf Hbuild Hget)
    as (f & Hf & Hfor).
  simpl in Hfor. subst f. eexists. split; [exact Hf |]. split; [reflexivity |].
  intros v rest Hv. unfold apply_formatter_at_index.
  cbn [List.length Nat.add Nat.ltb Nat.leb format_nth].
  destruct v; try reflexivity. now contradiction (Hv fields).
Qed.

Lemma keyed_formatter_edges_witness :
  exists f,
    Dict.get "eth_sendTransaction"
      match abi_request_formatters (fun l => l) [sample_normalizer] RPC_ABIS with
      | Ok fs => fs
      | Raise _ => []
      end = Some f
    /\ f [] = Raise IndexError
    /\ (forall v rest, (forall d, v <> VDict d) ->
          f (v :: rest) = Raise AttributeError).
Proof.
  apply (keyed_formatter_edges (fun l => l) [sample_normalizer] RPC_ABIS _
           "eth_sendTransaction" TRANSACTION_PARAMS_ABIS).
  - exact RPC_ABIS_wf.
  - reflexivity.
  - reflexivity.
Defined.

(** X21: a payload that shares no field with the keyed schema (the empty
    schema included) is returned as it is, whatever the normalizers. *)
Theorem unrelated_payload_unchanged
    (set_order : list string -> list string) (normalizers : list normalizer)
    (abi_dict : Dict.t Kind) (data : Dict.t value) :
  (forall l, Permutation (set_order l) l) ->
  (forall k, In k (Dict.keys abi_dict) -> ~ In k (Dict.keys data)) ->
  apply_abi_formatters_to_dict set_order normalizers abi_dict (VDict data)
  = Ok (VDict data).
Proof.
  intros Hperm Hdisjoint. cbn [apply_abi_formatters_to_dict].
  assert (Hnone : common_fields set_order abi_dict data = []).
  { unfold common_fields. rewrite SchemaFacts.filter_none.
    - apply Permutation_nil, Permutation_sym, Hperm.
    - intros k Hin. apply (proj1 (KeyedFacts.dedup_in _ _)) in Hin.
      destruct (Dict.mem k data) eqn:Hmem; [| reflexivity].
      apply DictFacts.mem_in in Hmem. exfalso. exact (Hdisjoint k Hin Hmem). }
  rewrite Hnone. reflexivity.
Qed.

Lemma unrelated_payload_unchanged_witness :
  apply_abi_formatters_to_dict (@rev string) [sample_normalizer]
    FILTER_PARAMS_ABIS (VDict [("fromBlock", VStr "0x1"); ("topics", VList [])])
  = Ok (VDict [("fromBlock", VStr "0x1"); ("topics", VList [])]).
Proof.
  apply (unrelated_payload_unchanged (@rev string) [sample_normalizer]
           FILTER_PARAMS_ABIS [("fromBlock", VStr "0x1"); ("topics", VList [])]).
  - intros l. apply Permutation_sym, Permutation_rev.
  - intros k Hin Hdata. simpl in Hin, Hdata.
    destruct Hin as [<- | [<- | []]]; intuition discriminate.
Defined.



(** X23: the nonce is formatted before it is removed: a transaction
    whose nonce is the bare prefix "0x" or "0X", the one text that
    [to_integer_if_hex] refuses, makes the transformer, and with it the
    request formatters of eth_sendTransaction and eth_estimateGas, raise
    [ValueError] although the nonce would not have been sent. *)
Theorem malformed_nonce_fails (tx : Dict.t value) (v : value) :
  Dict.get "nonce" tx = Some v ->
  v = VStr "0x" \/ v = VStr "0X" ->
  transaction_params_transformer (VDict tx) = Raise ValueError
  /\ (forall method rest,
        method = "eth_sendTransaction" \/ method = "eth_estimateGas" ->
        format_request method (VDict tx :: rest) = Raise ValueError).
Proof.
  intros Hget Hv.
  assert (Hraise : to_integer_if_hex v = Raise ValueError)
    by (destruct Hv as [-> | ->]; reflexivity).
  assert (Htr : transaction_params_transformer (VDict tx) = Raise ValueError).
  { destruct (SchemaFacts.format_items_raise_in TRANSACTION_PARAMS_FORMATTERS
                tx "nonce" v ValueError) as (e' & He').
    - now apply DictFacts.get_some_in.
    - exact Hraise.
    - pose proof (SchemaFacts.format_items_raise_kind
                    TRANSACTION_PARAMS_FORMATTERS ValueError
                    SchemaFacts.params_field_raise tx e' He') as ->.
      unfold transaction_params_transformer, transaction_params_formatter,
        apply_formatters_to_dict.
      now rewrite He'. }
  split; [assumption |].
  intros method rest Hm.
  rewrite SchemaFacts.single_transformer_methods by assumption.
  now rewrite Htr.
Qed.

Lemma malformed_nonce_fails_witness :
  transaction_params_transformer
    (VDict [("to", VStr "0xd3cd"); ("nonce", VStr "0x")])
  = Raise ValueError
  /\ (forall method rest,
        method = "eth_sendTransaction" \/ method = "eth_estimateGas" ->
        format_request method
          (VDict [("to", VStr "0xd3cd"); ("nonce", VStr "0x")] :: rest)
        = Raise ValueError).
Proof.
  apply (malformed_nonce_fails [("to", VStr "0xd3cd"); ("nonce", VStr "0x")]
           (VStr "0x")).
  - reflexivity.
  - now left.
Defined.

Example empty_nonce_dropped :
  transaction_params_transformer
    (VDict [("to", VStr "0xd3cd"); ("nonce", VStr "")])
  = Ok (VDict [("to", VStr "0xd3cd")]).
Proof. reflexivity. Qed.

(** X24: a transaction whose gas, gasPrice, value and nonce are each
    either not a string or the [hex] of a non-negative integer is always
    accepted by the transformer, and the integer written as [hex] under gas,
    gasPrice or value is what goes out (gasPrice under gas_price). *)
Theorem well_formed_quantities_accepted (tx : Dict.t value) :
  Dict.wf tx ->
  ~ In "gas_price" (Dict.keys tx) ->
  (forall k v, In k quantity_fields -> Dict.get k tx = Some v ->
     (forall s, v <> VStr s) \/ (exists n, 0 <= n /\ v = VStr (hex n))) ->
  exists tx',
    transaction_params_transformer (VDict tx) = Ok (VDict tx')
    /\ (forall k n, In k ["gas"; "gasPrice"; "value"] -> 0 <= n ->
          Dict.get k tx = Some (VStr (hex n)) ->
          Dict.get (map_key TRANSACTION_PARAMS_MAPPING k) tx' = Some (VInt n)).
Proof.
  intros Hwf Hgp Hfields.
  destruct (TxParamsFacts.transaction_params_transformer_total tx)
    as (tx' & Htx').
  { intros k v Hin. rewrite SchemaFacts.params_field.
    destruct (existsb (String.eqb k) quantity_fields) eqn:Hq; [| eauto].
    apply KeyedFacts.existsb_eqb_in in Hq.
    apply (DictFacts.in_get _ _ _ Hwf) in Hin.
    destruct (Hfields k v Hq Hin) as [Hns | (n & Hn & ->)].
    - exists v. rewrite RequestFacts.to_integer_if_hex_cases.
      destruct v; try reflexivity. now contradiction (Hns s).
    - exists (VInt n). now apply SchemaFacts.to_integer_if_hex_quantity. }
  exists tx'. split; [assumption |].
  destruct (TxParamsFacts.transaction_params_transformer_ok tx _ Hwf Htx')
    as (tx'' & E & _ & Hkept).
  inversion E; subst tx''.
  intros k n Hk Hn Hget.
  destruct (Hkept Hgp k (VStr (hex n))) as (v' & Hf & Hv'); [| assumption |].
  - simpl in Hk. destruct Hk as [<- | [<- | [<- | []]]]; discriminate.
  - rewrite SchemaFacts.params_field in Hf.
    replace (existsb (String.eqb k) quantity_fields) with true in Hf.
    + rewrite SchemaFacts.to_integer_if_hex_quantity in Hf by assumption.
      inversion Hf; subst. exact Hv'.
    + symmetry. apply KeyedFacts.existsb_eqb_in.
      simpl in Hk. unfold quantity_fields. simpl. tauto.
Qed.

Lemma well_formed_quantities_accepted_witness :
  exists tx',
    transaction_params_transformer
      (VDict [("gas", VStr (hex 21000)); ("value", VInt 5)])
    = Ok (VDict tx')
    /\ (forall k n, In k ["gas"; "gasPrice"; "value"] -> 0 <= n ->
          Dict.get k [("gas", VStr (hex 21000)); ("value", VInt 5)]
          = Some (VStr (hex n)) ->
          Dict.get (map_key TRANSACTION_PARAMS_MAPPING k) tx' = Some (VInt n)).
Proof.
  apply (well_formed_quantities_accepted
           [("gas", VStr (hex 21000)); ("value", VInt 5)]).
  - apply distinct_NoDup. reflexivity.
  - simpl. intuition discriminate.
  - intros k v Hk Hget. simpl in Hget.
    destruct (String.eqb k "gas").
    + inversion Hget; subst. right. exists 21000. split; [lia | reflexivity].
    + destruct (String.eqb k "value"); [| discriminate].
      inversion Hget; subst. left. discriminate.
Defined.
